(** * vscan-backup-file-detector: a shallow embedding of [main.py]

    The scanner appends each suffix of a list to a base URL, issues one
    HTTP GET per candidate and reports the candidates answered with
    status 200.  The script talks to four things outside itself: the
    network (through [requests]), the URL parser of the standard library,
    the logger and the file system.  They are gathered in a [Platform]
    record; the program state threads the observable effects (requests
    sent, log records, standard output, files). *)

From Stdlib Require Import ZArith Lia Ascii String.
From stdpp Require Import base strings list gmap pretty.

Open Scope string_scope.
Open Scope Z_scope.

(** ** Exceptions *)

(** The exception classes the script raises or catches.  [HTTPError] is the
    subclass of [RequestException] raised by [Response.raise_for_status]. *)
Inductive exn :=
| RequestException (msg : string)
| HTTPError (status_code : Z) (url : string)
| ValueError (msg : string)
| IOError (msg : string)
| SystemExit (code : Z).

(** [except requests.exceptions.RequestException] *)
Definition is_RequestException (e : exn) : bool :=
  match e with
  | RequestException _ | HTTPError _ _ => true
  | _ => false
  end.

(** [except IOError] *)
Definition is_IOError (e : exn) : bool :=
  match e with
  | IOError _ => true
  | _ => false
  end.

(** A bare [except:] *)
Definition any_exception (e : exn) : bool := true.

Inductive result (A : Type) :=
| Ok (a : A)
| Raise (e : exn).
Arguments Ok {A} a.
Arguments Raise {A} e.

(** ** Data *)

(** The two fields of [urllib.parse.ParseResult] that the script reads. *)
Record ParseResult := mkParseResult {
  scheme : string;
  netloc : string
}.

(** A [requests.Response], reduced to the field the script reads: the status
    of the final response, after redirects were followed. *)
Record Response := mkResponse {
  status_code : Z
}.

(** The [argparse.Namespace] returned by [setup_argparse]. *)
Record Namespace := mkNamespace {
  url : string;
  verbose : bool;
  output : option string;
  extensions : option (list string)
}.

(** Logging levels of the [logging] module. *)
Definition DEBUG : Z := 10.
Definition INFO : Z := 20.
Definition ERROR : Z := 40.

(** Python truthiness of [str], [list] and optional values. *)
Definition bool_str (s : string) : bool :=
  match s with
  | EmptyString => false
  | String _ _ => true
  end.

Definition bool_list {A} (l : list A) : bool :=
  match l with
  | [] => false
  | _ :: _ => true
  end.

Definition bool_opt {A} (truthy : A -> bool) (o : option A) : bool :=
  match o with
  | None => false
  | Some a => truthy a
  end.

(** [all(iterable)] over already evaluated truth values. *)
Definition all (bs : list bool) : bool := forallb id bs.

(** List of common backup file extensions to check for. *)
Definition BACKUP_EXTENSIONS : list string :=
  [".bak"; ".swp"; "~"; ".old"; ".tmp"; ".backup"; ".orig"].

(** The newline character written by [print] and by [save_results]. *)
Definition nl : string := String (ascii_of_nat 10) EmptyString.

(** ** The platform *)

Record Platform := mkPlatform {
  (** the state of everything reachable over the network *)
  World : Type;
  (** [requests.get(url, allow_redirects=True)]: the final response, or the
      message of the [RequestException] it raises *)
  http_get : string -> World -> (Response + string) * World;
  (** [urllib.parse.urlparse] *)
  urlparse : string -> result ParseResult;
  (** [str(e)] of the [HTTPError] raised for a status and a URL *)
  http_error_str : Z -> string -> string;
  (** [open(path, "w")]: the message of the [IOError], if it fails *)
  open_error : string -> option string;
  (** [f.write(data)] on the file at a path holding some content: the message
      of the [IOError], if it fails *)
  write_error : string -> string -> string -> option string
}.

Section Program.

Context (P : Platform).

(** ** Program state *)

Record state := mkState {
  world : World P;
  requests : list string;        (* URLs passed to requests.get, oldest first *)
  level : Z;                     (* level of the root logger *)
  log : list (Z * string);       (* records emitted, oldest first *)
  stdout : string;
  files : gmap string string     (* path -> content *)
}.

Definition set_world (w : World P) (st : state) : state :=
  mkState w (requests st) (level st) (log st) (stdout st) (files st).
Definition set_requests (r : list string) (st : state) : state :=
  mkState (world st) r (level st) (log st) (stdout st) (files st).
Definition set_level (l : Z) (st : state) : state :=
  mkState (world st) (requests st) l (log st) (stdout st) (files st).
Definition set_log (l : list (Z * string)) (st : state) : state :=
  mkState (world st) (requests st) (level st) l (stdout st) (files st).
Definition set_stdout (s : string) (st : state) : state :=
  mkState (world st) (requests st) (level st) (log st) s (files st).
Definition set_files (f : gmap string string) (st : state) : state :=
  mkState (world st) (requests st) (level st) (log st) (stdout st) f.

(** ** The monad of the script: state and exceptions *)

Definition M (A : Type) : Type := state -> result A * state.

Definition ret {A} (a : A) : M A := fun st => (Ok a, st).

Definition bind {A B} (m : M A) (k : A -> M B) : M B :=
  fun st =>
    match m st with
    | (Ok a, st') => k a st'
    | (Raise e, st') => (Raise e, st')
    end.

Definition raise {A} (e : exn) : M A := fun st => (Raise e, st).

(** [try: body except <catches> as e: handler e]; what the body did to the
    state before it raised stays done. *)
Definition try_except {A} (body : M A) (catches : exn -> bool)
    (handler : exn -> M A) : M A :=
  fun st =>
    match body st with
    | (Ok a, st') => (Ok a, st')
    | (Raise e, st') => if catches e then handler e st' else (Raise e, st')
    end.

Definition lift {A} (r : result A) : M A := fun st => (r, st).

Declare Scope py_scope.
Delimit Scope py_scope with py.
Notation "x <- c ;; k" := (bind c (fun x => k))
  (at level 100, c at next level, right associativity) : py_scope.
Notation "c ;; k" := (bind c (fun _ => k))
  (at level 100, right associativity) : py_scope.
Local Open Scope py_scope.

(** [for x in xs: body x] *)
Fixpoint for_each {A} (xs : list A) (body : A -> M unit) : M unit :=
  match xs with
  | [] => ret tt
  | x :: rest => body x ;; for_each rest body
  end.

(** ** Library calls *)

Definition str (e : exn) : string :=
  match e with
  | RequestException msg => msg
  | HTTPError c u => http_error_str P c u
  | ValueError msg => msg
  | IOError msg => msg
  | SystemExit c => pretty c
  end.

(** [logging.log(lvl, msg)] on the root logger: the record is emitted when
    [lvl] is at least the logger's level. *)
Definition logging_log (lvl : Z) (msg : string) : M unit :=
  fun st =>
    if level st <=? lvl then (Ok tt, set_log (log st ++ [(lvl, msg)]) st)
    else (Ok tt, st).

Definition logging_debug := logging_log DEBUG.
Definition logging_info := logging_log INFO.
Definition logging_error := logging_log ERROR.

(** [logging.getLogger().setLevel(lvl)] *)
Definition setLevel (lvl : Z) : M unit :=
  fun st => (Ok tt, set_level lvl st).

(** [print(s)] *)
Definition print (s : string) : M unit :=
  fun st => (Ok tt, set_stdout (stdout st +:+ s +:+ nl) st).

(** [sys.exit(code)] *)
Definition sys_exit {A} (code : Z) : M A := raise (SystemExit code).

(** [requests.get(url, allow_redirects=True)] *)
Definition requests_get (u : string) : M Response :=
  fun st =>
    let st1 := set_requests (requests st ++ [u]) st in
    match http_get P u (world st) with
    | (inl r, w) => (Ok r, set_world w st1)
    | (inr msg, w) => (Raise (RequestException msg), set_world w st1)
    end.

(** [response.raise_for_status()]: raises [HTTPError] for 4xx and 5xx. *)
Definition raise_for_status (u : string) (r : Response) : M unit :=
  if (400 <=? status_code r) && (status_code r <? 600)
  then raise (HTTPError (status_code r) u)
  else ret tt.

(** [open(path, "w")]: creates or truncates the file. *)
Definition open_w (path : string) : M string :=
  fun st =>
    match open_error P path with
    | Some msg => (Raise (IOError msg), st)
    | None => (Ok path, set_files (<[path := ""]> (files st)) st)
    end.

(** [f.write(data)] on a file opened by [open_w]. *)
Definition file_write (f : string) (data : string) : M unit :=
  fun st =>
    let content := default "" (files st !! f) in
    match write_error P f content data with
    | Some msg => (Raise (IOError msg), st)
    | None => (Ok tt, set_files (<[f := content +:+ data]> (files st)) st)
    end.

(** ** The script *)

(** Validates if the given URL is properly formatted. *)
Definition is_valid_url (u : string) : M bool :=
  try_except
    (result <- lift (urlparse P u) ;;
     ret (all [bool_str (scheme result); bool_str (netloc result)]))
    any_exception
    (fun _ => ret false).

(** One iteration of the loop of [check_backup_files]. *)
Definition check_backup_file (u ext : string) (found_files : list string)
    : M (list string) :=
  let backup_url := u +:+ ext in
  try_except
    (logging_debug ("Checking for: " +:+ backup_url) ;;
     response <- requests_get backup_url ;;
     raise_for_status backup_url response ;;
     if status_code response =? 200 then
       logging_info ("Found backup file: " +:+ backup_url) ;;
       ret (found_files ++ [backup_url])%list
     else
       logging_debug ("Status code " +:+ pretty (status_code response)
                      +:+ " for " +:+ backup_url) ;;
       ret found_files)
    is_RequestException
    (fun e =>
       logging_debug ("Error checking " +:+ backup_url +:+ ": " +:+ str e) ;;
       ret found_files).

(** The loop of [check_backup_files], with the list it appends to. *)
Fixpoint check_loop (u : string) (exts : list string)
    (found_files : list string) : M (list string) :=
  match exts with
  | [] => ret found_files
  | ext :: rest =>
      found_files' <- check_backup_file u ext found_files ;;
      check_loop u rest found_files'
  end.

(** Checks for the existence of backup files based on common extensions. *)
Definition check_backup_files (u : string) (exts : list string)
    : M (list string) :=
  check_loop u exts [].

(** Saves the scan results to a file. *)
Definition save_results (filename : string) (results : list string) : M unit :=
  try_except
    (f <- open_w filename ;;
     for_each results (fun result => file_write f (result +:+ nl)) ;;
     logging_info ("Results saved to: " +:+ filename))
    is_IOError
    (fun e => logging_error ("Error saving results to file: " +:+ str e)).

Definition invalid_url_message : string :=
  "Invalid URL provided. Please provide a valid URL including scheme (e.g., http://example.com).".

(** The reporting part of [main]: the statements after the call of
    [check_backup_files]. *)
Definition report_results (args : Namespace) (found_files : list string)
    : M unit :=
  if bool_list found_files then
    print "Possible backup files found:" ;;
    for_each found_files print ;;
    if bool_opt bool_str (output args) then
      save_results (default "" (output args)) found_files
    else ret tt
  else
    print "No backup files found.".

(** [extensions_to_use = args.extensions if args.extensions else
    BACKUP_EXTENSIONS] *)
Definition extensions_to_use (args : Namespace) : list string :=
  if bool_opt bool_list (extensions args)
  then default [] (extensions args)
  else BACKUP_EXTENSIONS.

(** Main function to orchestrate the backup file detection process. *)
Definition main (args : Namespace) : M unit :=
  (if verbose args then
     setLevel DEBUG ;;
     logging_debug "Verbose mode enabled."
   else ret tt) ;;
  let u := url args in
  valid <- is_valid_url u ;;
  (if negb valid then
     logging_error invalid_url_message ;;
     sys_exit 1
   else ret tt) ;;
  logging_info ("Scanning URL: " +:+ u) ;;
  found_files <- check_backup_files u (extensions_to_use args) ;;
  report_results args found_files.

(** The script: the module-level [logging.basicConfig(level=logging.INFO)]
    followed by [main()]. *)
Definition script (args : Namespace) : M unit :=
  setLevel INFO ;;
  main args.

(** The exit status of the process: 0 when the script returns, the code of
    a [SystemExit], 1 for any other uncaught exception. *)
Definition exit_status {A} (r : result A) : Z :=
  match r with
  | Ok _ => 0
  | Raise (SystemExit code) => code
  | Raise _ => 1
  end.

Definition run (args : Namespace) (st : state) : Z * state :=
  let (r, st') := script args st in (exit_status r, st').

(** ** States reached by the library calls *)

(** The records [rs] went through the logger. *)
Definition logged (rs : list (Z * string)) (st : state) : state :=
  set_log (log st ++ List.filter (fun r => level st <=? r.1) rs) st.

(** A GET of [u] was sent and the network moved to [w]. *)
Definition sent (u : string) (w : World P) (st : state) : state :=
  set_world w (set_requests (requests st ++ [u]) st).

(** The text written for a list of URLs, one per line. *)
Fixpoint lines (urls : list string) : string :=
  match urls with
  | [] => ""
  | x :: rest => x +:+ nl +:+ lines rest
  end.

(** ** What a run depends on *)

(** The value [is_valid_url] returns for [u]. *)
Definition url_ok (u : string) : bool :=
  match urlparse P u with
  | Ok r => bool_str (scheme r) && bool_str (netloc r)
  | Raise _ => false
  end.

(** The GET was answered with status 200. *)
Definition answered_200 (o : Response + string) : bool :=
  match o with
  | inl r => status_code r =? 200
  | inr _ => false
  end.

(** The candidates answered with status 200 when the suffixes are tried one
    after the other on a network in state [w]. *)
Fixpoint scan_result (u : string) (exts : list string) (w : World P)
    : list string :=
  match exts with
  | [] => []
  | ext :: rest =>
      let (o, w') := http_get P (u +:+ ext) w in
      if answered_200 o then (u +:+ ext) :: scan_result u rest w'
      else scan_result u rest w'
  end.

End Program.

Arguments world {P} s.
Arguments requests {P} s.
Arguments level {P} s.
Arguments log {P} s.
Arguments stdout {P} s.
Arguments files {P} s.
Arguments logged {P} rs st.
Arguments sent {P} u w st.

(** ** A concrete platform

    [urlparse_ref] follows [urllib.parse.urlsplit] on the two fields the
    script reads, for ASCII URLs; a netloc with unbalanced square brackets
    raises [ValueError].  The stub network answers each GET from a table
    indexed by URL and by the number of requests served so far. *)

Definition ascii_code (c : ascii) : N := N_of_ascii c.

Definition is_alpha (c : ascii) : bool :=
  let n := ascii_code c in
  (((65 <=? n) && (n <=? 90)) || ((97 <=? n) && (n <=? 122)))%N.

Definition is_digit (c : ascii) : bool :=
  let n := ascii_code c in ((48 <=? n) && (n <=? 57))%N.

(** [scheme_chars]: letters, digits, [+], [-] and [.] *)
Definition is_scheme_char (c : ascii) : bool :=
  let n := ascii_code c in
  is_alpha c || is_digit c || (n =? 43)%N || (n =? 45)%N || (n =? 46)%N.

Definition lower_char (c : ascii) : ascii :=
  let n := ascii_code c in
  if ((65 <=? n) && (n <=? 90))%N then ascii_of_N (n + 32) else c.

Fixpoint lower (s : string) : string :=
  match s with
  | EmptyString => EmptyString
  | String c s' => String (lower_char c) (lower s')
  end.

(** [url.lstrip(_WHATWG_C0_CONTROL_OR_SPACE)] *)
Fixpoint lstrip_c0 (s : string) : string :=
  match s with
  | EmptyString => EmptyString
  | String c s' => if (ascii_code c <=? 32)%N then lstrip_c0 s' else s
  end.

(** removal of tab, line feed and carriage return *)
Fixpoint remove_unsafe (s : string) : string :=
  match s with
  | EmptyString => EmptyString
  | String c s' =>
      let n := ascii_code c in
      if ((n =? 9) || (n =? 10) || (n =? 13))%N then remove_unsafe s'
      else String c (remove_unsafe s')
  end.

(** [s[:i], s[i+1:]] for [i = s.find(c)], when [c] occurs in [s] *)
Fixpoint split_at_char (c : ascii) (s : string) : option (string * string) :=
  match s with
  | EmptyString => None
  | String d s' =>
      if Ascii.eqb c d then Some (EmptyString, s')
      else match split_at_char c s' with
           | Some (pre, post) => Some (String d pre, post)
           | None => None
           end
  end.

Fixpoint string_forallb (p : ascii -> bool) (s : string) : bool :=
  match s with
  | EmptyString => true
  | String c s' => p c && string_forallb p s'
  end.

Definition contains_char (c : ascii) (s : string) : bool :=
  negb (string_forallb (fun d => negb (Ascii.eqb c d)) s).

(** the characters of [s] before the first of [/], [?] and [#] *)
Fixpoint take_netloc (s : string) : string :=
  match s with
  | EmptyString => EmptyString
  | String c s' =>
      let n := ascii_code c in
      if ((n =? 47) || (n =? 63) || (n =? 35))%N then EmptyString
      else String c (take_netloc s')
  end.

Definition split_scheme (s : string) : string * string :=
  match split_at_char ":" s with
  | Some (String c pre, post) =>
      if is_alpha c && string_forallb is_scheme_char (String c pre)
      then (lower (String c pre), post)
      else (EmptyString, s)
  | _ => (EmptyString, s)
  end.

Definition urlparse_ref (u : string) : result ParseResult :=
  let (sch, rest) := split_scheme (remove_unsafe (lstrip_c0 u)) in
  match rest with
  | String "/" (String "/" rest') =>
      let loc := take_netloc rest' in
      if xorb (contains_char "[" loc) (contains_char "]" loc)
      then Raise (ValueError "Invalid IPv6 URL")
      else Ok (mkParseResult sch loc)
  | _ => Ok (mkParseResult sch EmptyString)
  end.

Definition stub_platform (server : string -> nat -> Response + string)
    (read_only : list string) : Platform :=
  {| World := nat;
     http_get := fun u n => (server u n, S n);
     urlparse := urlparse_ref;
     http_error_str := fun c u => pretty c +:+ " Error for url: " +:+ u;
     open_error := fun p =>
       if bool_decide (p ∈ read_only) then Some "Permission denied" else None;
     write_error := fun _ _ _ => None |}.

(** A server holding exactly the files listed in [present]. *)
Definition static_server (present : list string) (u : string) (n : nat)
    : Response + string :=
  if bool_decide (u ∈ present) then inl (mkResponse 200)
  else inl (mkResponse 404).

Definition initial_state (P : Platform) (w : World P) : state P :=
  mkState P w [] INFO [] "" ∅.


(** A server that resets the first connection it gets and serves every
    later request. *)
Definition flaky_server (u : string) (n : nat) : Response + string :=
  match n with
  | O => inr "Connection reset by peer"
  | S _ => inl (mkResponse 200)
  end.

(** The stub of the specification: [app.bak] exists, nothing else does. *)
Definition example_platform : Platform :=
  stub_platform (static_server ["http://example.com/app.bak"]) [].



Definition flaky_platform : Platform := stub_platform flaky_server [].

(** What a run leaves behind, the log and the logger's level aside. *)
Definition obs {P : Platform} (st : state P)
    : World P * list string * string * gmap string string :=
  (world st, requests st, stdout st, files st).

(** Every file exists on the server; a file on disk has room for [quota]
    characters. *)
Definition quota_platform (quota : nat) : Platform :=
  {| World := nat;
     http_get := fun u n => (inl (mkResponse 200), S n);
     urlparse := urlparse_ref;
     http_error_str := fun c u => pretty c +:+ " Error for url: " +:+ u;
     open_error := fun _ => None;
     write_error := fun _ content data =>
       if (quota <? String.length content + String.length data)%nat
       then Some "No space left on device" else None |}.

(** Two computations agree up to the log: from states that differ at most
    in the log and in the logger's level they give the same result and
    reach states that again differ at most there. *)
Definition agree {P : Platform} {A} (m1 m2 : M P A) : Prop :=
  forall st1 st2,
    obs st1 = obs st2 ->
    (m1 st1).1 = (m2 st2).1 /\ obs (m1 st1).2 = obs (m2 st2).2.

(** * The script over the libraries as they behave

    A [Platform] describes [requests.get] by its documented contract (a
    response or a [RequestException]) and a disk on which a write fails as
    a whole.  A [Library] adds what the libraries do beyond that: an
    exception of another class let through by [requests.get] (urllib3's
    [LocationParseError], a [ValueError], for a host with an empty label),
    the records urllib3's loggers hand to the root logger during a request,
    the part of the text that is on disk when writing fails, and a failure
    of [close].  The functions of the script that reach these calls are
    embedded again over a [Library]; the others are the ones above. *)

Module Full.

Record Library := mkLibrary {
  platform :> Platform;
  (** [requests.get] raises an exception it does not wrap: the exception and
      the state the network is left in *)
  failure : string -> World platform -> option (exn * World platform);
  (** the records logged by the library during the request *)
  chatter : string -> World platform -> list (Z * string);
  (** when [write_error] reports a failure for a path, its content and the
      text to append: how many characters of the text are on disk *)
  written_before_error : string -> string -> string -> nat;
  (** [f.close()] on the file at a path holding some content: the message
      of the [IOError], if it fails *)
  close_error : string -> string -> option string
}.

Section Script.

Context (L : Library).

Declare Scope full_scope.
Notation "x <- c ;; k" := (bind L c (fun x => k))
  (at level 100, c at next level, right associativity) : full_scope.
Notation "c ;; k" := (bind L c (fun _ => k))
  (at level 100, right associativity) : full_scope.
Local Open Scope full_scope.

(** [requests.get(url, allow_redirects=True)]: the records of the library go
    through the root logger, then the call returns or raises. *)
Definition requests_get (u : string) : M L Response :=
  fun st =>
    let st1 := logged (chatter L u (world st))
                 (set_requests L (requests st ++ [u]) st) in
    match failure L u (world st) with
    | Some (e, w) => (Raise e, set_world L w st1)
    | None =>
        match http_get L u (world st) with
        | (inl r, w) => (Ok r, set_world L w st1)
        | (inr msg, w) => (Raise (RequestException msg), set_world L w st1)
        end
    end.

(** [f.write(data)]: Python buffers the text, so that a failure leaves on
    disk a part of what was written, not whole lines. *)
Definition file_write (f : string) (data : string) : M L unit :=
  fun st =>
    let content := default "" (files st !! f) in
    match write_error L f content data with
    | Some msg =>
        (Raise (IOError msg),
         set_files L
           (<[f := content
                   +:+ substring 0 (written_before_error L f content data) data]>
              (files st)) st)
    | None => (Ok tt, set_files L (<[f := content +:+ data]> (files st)) st)
    end.

(** [f.close()] *)
Definition close (f : string) : M L unit :=
  fun st =>
    match close_error L f (default "" (files st !! f)) with
    | Some msg => (Raise (IOError msg), st)
    | None => (Ok tt, st)
    end.

(** [with open(path, "w") as f: body f]: the file is closed when the body
    returns and when it raises; an exception of [close] replaces the one of
    the body. *)
Definition with_open_w (path : string) (body : string -> M L unit) : M L unit :=
  f <- open_w L path ;;
  fun st =>
    match body f st with
    | (Ok _, st') => close f st'
    | (Raise e, st') =>
        match close f st' with
        | (Ok _, st'') => (Raise e, st'')
        | (Raise e', st'') => (Raise e', st'')
        end
    end.

(** One iteration of the loop of [check_backup_files]. *)
Definition check_backup_file (u ext : string) (found_files : list string)
    : M L (list string) :=
  let backup_url := u +:+ ext in
  try_except L
    (logging_debug L ("Checking for: " +:+ backup_url) ;;
     response <- requests_get backup_url ;;
     raise_for_status L backup_url response ;;
     if status_code response =? 200 then
       logging_info L ("Found backup file: " +:+ backup_url) ;;
       ret L (found_files ++ [backup_url])%list
     else
       logging_debug L ("Status code " +:+ pretty (status_code response)
                        +:+ " for " +:+ backup_url) ;;
       ret L found_files)
    is_RequestException
    (fun e =>
       logging_debug L ("Error checking " +:+ backup_url +:+ ": " +:+ str L e) ;;
       ret L found_files).

(** The loop of [check_backup_files], with the list it appends to. *)
Fixpoint check_loop (u : string) (exts : list string)
    (found_files : list string) : M L (list string) :=
  match exts with
  | [] => ret L found_files
  | ext :: rest =>
      found_files' <- check_backup_file u ext found_files ;;
      check_loop u rest found_files'
  end.

(** Checks for the existence of backup files based on common extensions. *)
Definition check_backup_files (u : string) (exts : list string)
    : M L (list string) :=
  check_loop u exts [].

(** Saves the scan results to a file. *)
Definition save_results (filename : string) (results : list string)
    : M L unit :=
  try_except L
    (with_open_w filename
       (fun f => for_each L results (fun result => file_write f (result +:+ nl))) ;;
     logging_info L ("Results saved to: " +:+ filename))
    is_IOError
    (fun e => logging_error L ("Error saving results to file: " +:+ str L e)).

(** The reporting part of [main]. *)
Definition report_results (args : Namespace) (found_files : list string)
    : M L unit :=
  if bool_list found_files then
    print L "Possible backup files found:" ;;
    for_each L found_files (print L) ;;
    if bool_opt bool_str (output args) then
      save_results (default "" (output args)) found_files
    else ret L tt
  else
    print L "No backup files found.".

(** Main function to orchestrate the backup file detection process. *)
Definition main (args : Namespace) : M L unit :=
  (if verbose args then
     setLevel L DEBUG ;;
     logging_debug L "Verbose mode enabled."
   else ret L tt) ;;
  let u := url args in
  valid <- is_valid_url L u ;;
  (if negb valid then
     logging_error L invalid_url_message ;;
     sys_exit L 1
   else ret L tt) ;;
  logging_info L ("Scanning URL: " +:+ u) ;;
  found_files <- check_backup_files u (extensions_to_use args) ;;
  report_results args found_files.

(** The script: [logging.basicConfig(level=logging.INFO)], then [main()]. *)
Definition script (args : Namespace) : M L unit :=
  setLevel L INFO ;;
  main args.

Definition run (args : Namespace) (st : state L) : Z * state L :=
  let (r, st') := script args st in (exit_status r, st').

(** No request for a candidate of the list raises an exception that
    [requests] does not wrap. *)
Definition well_behaved (u : string) (exts : list string) : Prop :=
  forall ext w, In ext exts -> failure L (u +:+ ext) w = None.

End Script.

End Full.

Coercion Full.platform : Full.Library >-> Platform.

(** ** A concrete library *)

(** [ParseResult.hostname]: the part of the netloc after the user
    information and before the port, in lower case; empty when the netloc
    has none. *)
Definition after_last_at (s : string) : string :=
  (fix go (s acc : string) : string :=
     match s with
     | EmptyString => acc
     | String c s' => if Ascii.eqb c "@" then go s' s' else go s' acc
     end) s s.

Definition hostname (loc : string) : string :=
  let hostinfo := after_last_at loc in
  match split_at_char "[" hostinfo with
  | Some (_, bracketed) =>
      match split_at_char "]" bracketed with
      | Some (h, _) => lower h
      | None => lower bracketed
      end
  | None =>
      match split_at_char ":" hostinfo with
      | Some (h, _) => lower h
      | None => lower hostinfo
      end
  end.

(** The host of a URL has an empty label: two dots in a row. *)
Fixpoint has_empty_label (host : string) : bool :=
  match host with
  | String "." (String "." _) => true
  | String _ rest => has_empty_label rest
  | EmptyString => false
  end.

Definition host_of_url (u : string) : string :=
  match urlparse_ref u with
  | Ok r => hostname (netloc r)
  | Raise _ => EmptyString
  end.

(** No host resolves; a host with an empty label makes urllib3 raise a
    [LocationParseError], which [requests.get] lets through; at DEBUG the
    connection pool logs the connection it opens. *)
Definition offline_library : Full.Library :=
  {| Full.platform :=
       stub_platform (fun _ _ => inr "Failed to resolve host") [];
     Full.failure := fun u (n : nat) =>
       if has_empty_label (host_of_url u)
       then Some (ValueError ("'" +:+ host_of_url u
                              +:+ "', label empty or too long"), S n)
       else None;
     Full.chatter := fun u _ =>
       [(DEBUG, "Starting new HTTP connection (1): " +:+ host_of_url u)];
     Full.written_before_error := fun _ _ _ => 0%nat;
     Full.close_error := fun _ _ => None |}.

(** Every file exists on the server and the connection pool logs what it
    does; a file on disk has room for [quota] characters. *)
Definition quota_library (quota : nat) : Full.Library :=
  {| Full.platform := quota_platform quota;
     Full.failure := fun _ _ => None;
     Full.chatter := fun u _ =>
       [(DEBUG, "Starting new HTTP connection (1): " +:+ host_of_url u);
        (DEBUG, "GET " +:+ u +:+ " 200")];
     Full.written_before_error := fun _ content _ =>
       (quota - String.length content)%nat;
     Full.close_error := fun _ _ => None |}.

(** * Properties *)

Section Properties.

Context (P : Platform).

Implicit Types (st : state P) (u ext path : string) (found : list string).

(** ** The logger *)

Lemma logging_log_run lvl msg st :
  logging_log P lvl msg st = (Ok tt, logged [(lvl, msg)] st).
Proof.
  unfold logging_log, logged. simpl.
  destruct (level st <=? lvl); [reflexivity|].
  rewrite app_nil_r. destruct st; reflexivity.
Qed.

Lemma logged_app rs1 rs2 st :
  logged rs2 (logged rs1 st) = logged (rs1 ++ rs2) st.
Proof.
  unfold logged, set_log. simpl. rewrite List.filter_app, app_assoc. reflexivity.
Qed.

Lemma sent_logged rs u w st :
  set_world P w (set_requests P (requests st ++ [u]) (logged rs st))
  = logged rs (sent u w st).
Proof. reflexivity. Qed.

(** ** One iteration of the scan *)

Ltac run_probe Hget :=
  unfold check_backup_file, try_except, bind, requests_get, logging_debug,
    logging_info;
  rewrite !logging_log_run; simpl; rewrite Hget; simpl.

Lemma probe_network_error u ext found st msg w :
  http_get P (u +:+ ext) (world st) = (inr msg, w) ->
  check_backup_file P u ext found st =
    (Ok found,
     logged [(DEBUG, "Checking for: " +:+ (u +:+ ext));
             (DEBUG, "Error checking " +:+ (u +:+ ext) +:+ ": " +:+ msg)]
       (sent (u +:+ ext) w st)).
Proof.
  intros Hget. run_probe Hget.
  rewrite logging_log_run. unfold ret.
  rewrite sent_logged, logged_app. reflexivity.
Qed.

Lemma probe_error_status u ext found st r w :
  http_get P (u +:+ ext) (world st) = (inl r, w) ->
  400 <= status_code r < 600 ->
  check_backup_file P u ext found st =
    (Ok found,
     logged [(DEBUG, "Checking for: " +:+ (u +:+ ext));
             (DEBUG, "Error checking " +:+ (u +:+ ext) +:+ ": "
                     +:+ http_error_str P (status_code r) (u +:+ ext))]
       (sent (u +:+ ext) w st)).
Proof.
  intros Hget Hc. run_probe Hget. unfold raise_for_status.
  replace ((400 <=? status_code r) && (status_code r <? 600)) with true
    by (symmetry; apply andb_true_intro; split; lia).
  unfold raise. simpl.
  rewrite logging_log_run. unfold ret.
  rewrite sent_logged, logged_app. reflexivity.
Qed.

Lemma probe_found u ext found st r w :
  http_get P (u +:+ ext) (world st) = (inl r, w) ->
  status_code r = 200 ->
  check_backup_file P u ext found st =
    (Ok (found ++ [u +:+ ext])%list,
     logged [(DEBUG, "Checking for: " +:+ (u +:+ ext));
             (INFO, "Found backup file: " +:+ (u +:+ ext))]
       (sent (u +:+ ext) w st)).
Proof.
  intros Hget Hc. run_probe Hget. unfold raise_for_status.
  rewrite Hc. simpl. unfold logging_info.
  rewrite logging_log_run. unfold ret.
  rewrite sent_logged, logged_app. reflexivity.
Qed.

Lemma probe_other_status u ext found st r w :
  http_get P (u +:+ ext) (world st) = (inl r, w) ->
  ~ 400 <= status_code r < 600 ->
  status_code r <> 200 ->
  check_backup_file P u ext found st =
    (Ok found,
     logged [(DEBUG, "Checking for: " +:+ (u +:+ ext));
             (DEBUG, "Status code " +:+ pretty (status_code r) +:+ " for "
                     +:+ (u +:+ ext))]
       (sent (u +:+ ext) w st)).
Proof.
  intros Hget Hc H200. run_probe Hget. unfold raise_for_status.
  replace ((400 <=? status_code r) && (status_code r <? 600)) with false
    by (symmetry; apply andb_false_iff; lia).
  simpl.
  replace (status_code r =? 200) with false by (symmetry; lia).
  unfold logging_debug. rewrite logging_log_run. unfold ret.
  rewrite sent_logged, logged_app. reflexivity.
Qed.

(** One iteration in one equation. *)
Lemma probe_scan u ext found st :
  exists rs,
    check_backup_file P u ext found st
      = (Ok (if answered_200 (http_get P (u +:+ ext) (world st)).1
             then (found ++ [u +:+ ext])%list else found),
         logged rs (sent (u +:+ ext) (http_get P (u +:+ ext) (world st)).2 st)).
Proof.
  destruct (http_get P (u +:+ ext) (world st)) as [[r|msg] w] eqn:Hget; simpl.
  - destruct (decide (400 <= status_code r < 600)) as [Hc|Hc].
    + eexists. erewrite probe_error_status by eauto.
      replace (status_code r =? 200) with false by (symmetry; lia).
      reflexivity.
    + destruct (decide (status_code r = 200)) as [H2|H2].
      * eexists. erewrite probe_found by eauto.
        rewrite H2. reflexivity.
      * eexists. erewrite probe_other_status by eauto.
        replace (status_code r =? 200) with false by (symmetry; lia).
        reflexivity.
  - eexists. erewrite probe_network_error by eauto. reflexivity.
Qed.

(** ** The scan *)

(** The loop returns the list it was given followed by [scan_result]; it
    sends one request per suffix, in order, and leaves the logger's level,
    standard output and the files alone. *)
Lemma check_loop_scan u exts : forall found st,
  exists st',
    check_loop P u exts found st
      = (Ok (found ++ scan_result P u exts (world st))%list, st')
    /\ requests st' = (requests st ++ map (String.append u) exts)%list
    /\ level st' = level st
    /\ stdout st' = stdout st
    /\ files st' = files st.
Proof.
  induction exts as [|ext rest IH]; intros found st; simpl.
  - exists st. unfold ret. rewrite !app_nil_r. auto.
  - destruct (probe_scan u ext found st) as [rs Hp].
    unfold bind. rewrite Hp.
    destruct (http_get P (u +:+ ext) (world st)) as [o w]; simpl in *.
    match goal with |- context [check_loop P u rest ?f ?s] =>
      destruct (IH f s) as (st' & Hl & Hr & Hlv & Hso & Hf) end.
    exists st'. rewrite Hl. simpl in *.
    repeat split; try assumption.
    + destruct (answered_200 o); simpl; [rewrite <- app_assoc|]; reflexivity.
    + rewrite Hr, <- app_assoc. reflexivity.
Qed.

Lemma check_backup_files_scan u exts st :
  exists st',
    check_backup_files P u exts st
      = (Ok (scan_result P u exts (world st)), st')
    /\ requests st' = (requests st ++ map (String.append u) exts)%list
    /\ level st' = level st
    /\ stdout st' = stdout st
    /\ files st' = files st.
Proof. apply (check_loop_scan u exts [] st). Qed.


(** ** The validator *)

Lemma is_valid_url_run u st : is_valid_url P u st = (Ok (url_ok P u), st).
Proof.
  unfold is_valid_url, url_ok, try_except, bind, lift, ret, all.
  destruct (urlparse P u) as [r|e]; simpl; [|reflexivity].
  rewrite andb_true_r. reflexivity.
Qed.

Lemma bool_str_true s : bool_str s = true <-> s <> "".
Proof. destruct s; simpl; split; intros; congruence. Qed.

Lemma url_ok_iff u :
  url_ok P u = true <->
  exists r, urlparse P u = Ok r /\ scheme r <> "" /\ netloc r <> "".
Proof.
  unfold url_ok. destruct (urlparse P u) as [r|e].
  - rewrite andb_true_iff, !bool_str_true. split.
    + intros [Hs Hn]. exists r. auto.
    + intros (r' & Hr & Hs & Hn). injection Hr as <-. auto.
  - split; [discriminate|]. intros (r & Hr & _). discriminate.
Qed.

(** ** Strings *)

Lemma append_cons x (a b : string) : String x a +:+ b = String x (a +:+ b).
Proof. reflexivity. Qed.

Lemma append_assoc (a b c : string) : (a +:+ b) +:+ c = a +:+ (b +:+ c).
Proof.
  induction a as [|x a IH]; [reflexivity|].
  rewrite !append_cons, IH. reflexivity.
Qed.

Lemma append_nil_r (a : string) : a +:+ "" = a.
Proof.
  induction a as [|x a IH]; [reflexivity|].
  rewrite append_cons, IH. reflexivity.
Qed.

Lemma lines_app xs ys : lines (xs ++ ys) = lines xs +:+ lines ys.
Proof.
  induction xs as [|x xs IH]; simpl; [reflexivity|].
  rewrite IH, ?append_assoc. reflexivity.
Qed.

(** ** The reporter *)

Lemma print_all found : forall st,
  for_each P found (print P) st
    = (Ok tt, set_stdout P (stdout st +:+ lines found) st).
Proof.
  induction found as [|x rest IH]; intros st; simpl.
  - unfold ret. rewrite append_nil_r. destruct st; reflexivity.
  - unfold bind, print at 1. rewrite IH. simpl.
    rewrite !append_assoc. reflexivity.
Qed.

(** Writing a list of lines to an open file: either every write succeeds
    and the lines follow what the file held, or some write raises and only
    the file written to has changed. *)
Lemma write_all f results : forall st c,
  files st !! f = Some c ->
  for_each P results (fun result => file_write P f (result +:+ nl)) st
    = (Ok tt, set_files P (<[f := c +:+ lines results]> (files st)) st)
  \/ exists msg c',
      for_each P results (fun result => file_write P f (result +:+ nl)) st
        = (Raise (IOError msg), set_files P (<[f := c']> (files st)) st).
Proof.
  induction results as [|x rest IH]; intros st c Hc; simpl.
  - left. unfold ret. rewrite append_nil_r, insert_id by assumption.
    destruct st; reflexivity.
  - unfold bind, file_write at 1 3. rewrite Hc. simpl.
    destruct (write_error P f c (x +:+ nl)) as [msg|] eqn:Hw.
    + right. exists msg, c. rewrite insert_id by assumption.
      destruct st; reflexivity.
    + destruct (IH (set_files P (<[f := c +:+ x +:+ nl]> (files st)) st)
                  (c +:+ x +:+ nl)) as [Hok | (msg & c' & Hfail)].
      * simpl. apply lookup_insert_eq.
      * left. rewrite Hok. simpl. rewrite insert_insert_eq, ?append_assoc.
        reflexivity.
      * right. exists msg, c'. rewrite Hfail. simpl.
        rewrite insert_insert_eq. reflexivity.
Qed.


(** [save_results] never raises: it ends with the file holding the lines and
    an INFO record, or with an ERROR record and no other file touched. *)
Lemma save_results_run path results st :
  save_results P path results st
    = (Ok tt, logged [(INFO, "Results saved to: " +:+ path)]
                (set_files P (<[path := lines results]> (files st)) st))
  \/ exists msg fs,
      save_results P path results st
        = (Ok tt, logged [(ERROR, "Error saving results to file: " +:+ msg)]
                    (set_files P fs st))
      /\ forall p, p <> path -> fs !! p = files st !! p.
Proof.
  unfold save_results, try_except, bind, open_w.
  destruct (open_error P path) as [msg|] eqn:Ho; simpl.
  - right. exists msg, (files st). unfold logging_error.
    rewrite logging_log_run. split; [|auto]. destruct st; reflexivity.
  - destruct (write_all path results
                (set_files P (<[path := ""]> (files st)) st) "")
      as [Hok | (msg & c' & Hfail)].
    + simpl. apply lookup_insert_eq.
    + left. rewrite Hok. unfold logging_info. rewrite logging_log_run.
      simpl. rewrite insert_insert_eq. reflexivity.
    + right. exists msg, (<[path := c']> (files st)). rewrite Hfail. simpl.
      unfold logging_error. rewrite logging_log_run.
      rewrite insert_insert_eq. split; [reflexivity|].
      intros p Hp. apply lookup_insert_ne. congruence.
Qed.



Lemma report_results_none args st :
  report_results P args [] st
    = (Ok tt, set_stdout P (stdout st +:+ "No backup files found." +:+ nl) st).
Proof. reflexivity. Qed.

Lemma report_results_some args found st :
  found <> [] ->
  report_results P args found st
    = let st1 := set_stdout P (stdout st +:+ "Possible backup files found:"
                               +:+ nl +:+ lines found) st in
      if bool_opt bool_str (output args)
      then save_results P (default "" (output args)) found st1
      else (Ok tt, st1).
Proof.
  intros Hne. unfold report_results.
  destruct found as [|x rest]; [congruence|].
  unfold bool_list, bind, print at 1. rewrite print_all. simpl.
  rewrite !append_assoc.
  destruct (bool_opt bool_str (output args)); reflexivity.
Qed.

(** The reporter never raises and leaves the network and the requests
    alone. *)
Lemma report_results_returns args found st :
  exists st',
    report_results P args found st = (Ok tt, st')
    /\ world st' = world st /\ requests st' = requests st.
Proof.
  destruct found as [|x rest].
  - rewrite report_results_none. eexists. split; [reflexivity|]. auto.
  - rewrite report_results_some by discriminate. simpl.
    destruct (bool_opt bool_str (output args)).
    + match goal with |- context [save_results P ?p ?f ?s] =>
        destruct (save_results_run p f s) as [H | (msg & fs & H & _)] end;
      rewrite H; eexists; (split; [reflexivity|]); auto.
    + eexists. split; [reflexivity|]. auto.
Qed.

(** ** The whole run *)

Lemma run_invalid args st :
  url_ok P (url args) = false ->
  exists st',
    run P args st = (1, st')
    /\ world st' = world st /\ requests st' = requests st
    /\ stdout st' = stdout st /\ files st' = files st.
Proof.
  intros Hinv. unfold run, script, main, bind, setLevel.
  destruct (verbose args); simpl;
    unfold logging_debug; rewrite ?logging_log_run; simpl;
    rewrite is_valid_url_run, Hinv; simpl;
    unfold logging_error; rewrite ?logging_log_run; simpl;
    eexists; (split; [reflexivity|]); auto.
Qed.

Lemma run_valid args st :
  url_ok P (url args) = true ->
  exists s2 st',
    requests s2
      = (requests st
         ++ map (String.append (url args)) (extensions_to_use args))%list
    /\ level s2 = (if verbose args then DEBUG else INFO)
    /\ stdout s2 = stdout st
    /\ files s2 = files st
    /\ report_results P args
         (scan_result P (url args) (extensions_to_use args) (world st)) s2
       = (Ok tt, st')
    /\ requests st' = requests s2
    /\ run P args st = (0, st').
Proof.
  intros Hval. unfold run, script, main, bind, setLevel.
  destruct (verbose args); simpl;
    unfold logging_debug; rewrite ?logging_log_run; simpl;
    rewrite is_valid_url_run, Hval; simpl;
    unfold logging_info; rewrite ?logging_log_run; simpl;
    match goal with |- context [check_backup_files P ?u ?e ?s] =>
      destruct (check_backup_files_scan u e s)
        as (s2 & Hc & Hr & Hl & Hso & Hf) end;
    rewrite Hc; simpl in *;
    destruct (report_results_returns args
                (scan_result P (url args) (extensions_to_use args) (world st))
                s2) as (st' & Hrep & _ & Hreq);
    rewrite Hrep; exists s2, st'; auto 10.
Qed.

(** ** Counting occurrences *)





(** ** The claims *)









End Properties.

(** ** The claims on concrete runs *)

Example urlparse_ref_http :
  urlparse_ref "http://example.com/app" = Ok (mkParseResult "http" "example.com").
Proof. reflexivity. Qed.

Example urlparse_ref_plain :
  urlparse_ref "not a url" = Ok (mkParseResult "" "").
Proof. reflexivity. Qed.

Example urlparse_ref_bracket :
  urlparse_ref "http://[::1" = Raise (ValueError "Invalid IPv6 URL").
Proof. reflexivity. Qed.

(** The stub of the specification: only [app.bak] is found, it is printed
    and saved. *)
Example run_example :
  let st := initial_state example_platform 0%nat in
  let args := mkNamespace "http://example.com/app" false
                (Some "results.txt") None in
  let r := run example_platform args st in
  r.1 = 0
  /\ requests r.2 = map (fun ext => "http://example.com/app" +:+ ext)
                       BACKUP_EXTENSIONS
  /\ stdout r.2 = "Possible backup files found:" +:+ nl
                  +:+ "http://example.com/app.bak" +:+ nl
  /\ files r.2 !! "results.txt" = Some ("http://example.com/app.bak" +:+ nl).
Proof. vm_compute. repeat split. Qed.

(** An invalid URL: exit status 1, no request, nothing printed. *)
Example run_not_a_url :
  let st := initial_state example_platform 0%nat in
  let args := mkNamespace "not a url" false (Some "results.txt") None in
  let r := run example_platform args st in
  r.1 = 1 /\ requests r.2 = [] /\ stdout r.2 = "" /\ files r.2 = ∅.
Proof. vm_compute. repeat split. Qed.










(** * Further properties of the script *)

Section More.

Context (P : Platform).

Implicit Types (st : state P) (u ext path : string) (found : list string).

(** ** The scan *)





(** ** Stateless servers *)


(** ** What a run touches *)

(** X7: a run on an invalid URL prints nothing and writes no file; what it
    adds to the log is the ERROR record of the invalid URL, preceded in
    verbose mode by the record that verbose mode is on. *)
Theorem X7_invalid_url_only_logs args st :
  url_ok P (url args) = false ->
  exists st',
    run P args st = (1, st')
    /\ stdout st' = stdout st
    /\ files st' = files st
    /\ log st'
       = (log st
          ++ (if verbose args then [(DEBUG, "Verbose mode enabled.")] else [])
          ++ [(ERROR, invalid_url_message)])%list.
Proof.
  intros Hinv. unfold run, script, main, bind, setLevel.
  destruct (verbose args); simpl;
    unfold logging_debug; rewrite ?logging_log_run; simpl;
    rewrite is_valid_url_run, Hinv; simpl;
    eexists; (split; [reflexivity|]); simpl;
    rewrite <- ?app_assoc; auto.
Qed.

Lemma report_results_files args found st st' :
  report_results P args found st = (Ok tt, st') ->
  (bool_opt bool_str (output args) = false -> files st' = files st)
  /\ (forall path p, output args = Some path -> p <> path ->
        files st' !! p = files st !! p).
Proof.
  destruct found as [|x rest].
  - rewrite report_results_none. intros H. injection H as <-. auto.
  - rewrite report_results_some by discriminate. simpl.
    destruct (bool_opt bool_str (output args)) eqn:Hout.
    + match goal with |- context [save_results P ?q ?f ?s] =>
        destruct (save_results_run P q f s) as [H | (msg & fs & H & Hfs)] end;
        rewrite H; intros H'; injection H' as <-;
        (split; [discriminate|]); intros path p Hp Hne;
        rewrite Hp in *; simpl.
      * apply lookup_insert_ne. congruence.
      * apply Hfs. exact Hne.
    + intros H. injection H as <-. auto.
Qed.

(** X8: a run changes at most the file at the output path.  Without an
    output path, or with the empty one, no file is created or modified,
    whatever the URL and whatever is found; with an output path, every
    other file is left as it was. *)
Theorem X8_run_touches_only_the_output_file args st :
  exists code st',
    run P args st = (code, st')
    /\ (bool_opt bool_str (output args) = false -> files st' = files st)
    /\ (forall path p, output args = Some path -> p <> path ->
          files st' !! p = files st !! p).
Proof.
  destruct (url_ok P (url args)) eqn:Hval.
  - destruct (run_valid P args st Hval)
      as (s2 & st' & _ & _ & _ & Hf & Hrep & _ & Hrun).
    exists 0, st'. split; [exact Hrun|].
    destruct (report_results_files _ _ _ _ Hrep) as [Hnone Hother].
    split.
    + intros Hout. rewrite (Hnone Hout). exact Hf.
    + intros path p Hp Hne. rewrite (Hother path p Hp Hne), Hf. reflexivity.
  - destruct (run_invalid P args st Hval) as (st' & Hrun & _ & _ & _ & Hf).
    exists 1, st'. split; [exact Hrun|]. split.
    + intros _. exact Hf.
    + intros path p _ _. rewrite Hf. reflexivity.
Qed.

(** ** The verbose flag *)

Lemma agree_ret {A} (a : A) : agree (ret P a) (ret P a).
Proof. intros st1 st2 H. auto. Qed.

Lemma agree_raise {A} e : agree (raise P (A:=A) e) (raise P e).
Proof. intros st1 st2 H. auto. Qed.

Lemma agree_lift {A} (r : result A) : agree (lift P r) (lift P r).
Proof. intros st1 st2 H. auto. Qed.

Lemma agree_bind {A B} (m1 m2 : M P A) (k1 k2 : A -> M P B) :
  agree m1 m2 -> (forall a, agree (k1 a) (k2 a)) ->
  agree (bind P m1 k1) (bind P m2 k2).
Proof.
  intros Hm Hk st1 st2 H. unfold bind.
  destruct (Hm st1 st2 H) as [Hr Ho].
  destruct (m1 st1) as [[a1|e1] s1], (m2 st2) as [[a2|e2] s2];
    simpl in *; try discriminate.
  - injection Hr as ->. apply Hk. exact Ho.
  - injection Hr as ->. auto.
Qed.

Lemma agree_try_except {A} (m1 m2 : M P A) catches (h1 h2 : exn -> M P A) :
  agree m1 m2 -> (forall e, agree (h1 e) (h2 e)) ->
  agree (try_except P m1 catches h1) (try_except P m2 catches h2).
Proof.
  intros Hm Hh st1 st2 H. unfold try_except.
  destruct (Hm st1 st2 H) as [Hr Ho].
  destruct (m1 st1) as [[a1|e1] s1], (m2 st2) as [[a2|e2] s2];
    simpl in *; try discriminate.
  - auto.
  - injection Hr as ->. destruct (catches e2); [apply Hh; exact Ho | auto].
Qed.

(** Logging may differ between the two sides: it is not observed. *)
Lemma agree_logging lvl1 msg1 lvl2 msg2 :
  agree (logging_log P lvl1 msg1) (logging_log P lvl2 msg2).
Proof.
  intros st1 st2 H. rewrite !logging_log_run. split; [reflexivity|exact H].
Qed.

Lemma agree_logging_skip lvl msg : agree (logging_log P lvl msg) (ret P tt).
Proof.
  intros st1 st2 H. rewrite logging_log_run. split; [reflexivity|exact H].
Qed.

Lemma agree_setLevel_skip lvl : agree (setLevel P lvl) (ret P tt).
Proof. intros st1 st2 H. split; [reflexivity|exact H]. Qed.

Lemma agree_print s : agree (print P s) (print P s).
Proof.
  intros st1 st2 H. unfold obs in *. injection H as Hw Hr Hs Hf.
  simpl. split; [reflexivity|]. congruence.
Qed.

Lemma agree_requests_get u : agree (requests_get P u) (requests_get P u).
Proof.
  intros st1 st2 H. unfold obs in *. injection H as Hw Hr Hs Hf.
  unfold requests_get. rewrite Hw.
  destruct (http_get P u (world st2)) as [[r|msg] w]; simpl;
    (split; [reflexivity|]); congruence.
Qed.

Lemma agree_open_w path : agree (open_w P path) (open_w P path).
Proof.
  intros st1 st2 H. unfold obs in *. injection H as Hw Hr Hs Hf.
  unfold open_w. destruct (open_error P path); simpl;
    (split; [reflexivity|]); congruence.
Qed.

Lemma agree_file_write f data : agree (file_write P f data) (file_write P f data).
Proof.
  intros st1 st2 H. unfold obs in *. injection H as Hw Hr Hs Hf.
  unfold file_write. rewrite Hf.
  destruct (write_error P f _ data); simpl;
    (split; [reflexivity|]); congruence.
Qed.

Lemma agree_for_each {A} (xs : list A) (body : A -> M P unit) :
  (forall x, agree (body x) (body x)) ->
  agree (for_each P xs body) (for_each P xs body).
Proof.
  intros Hb. induction xs as [|x rest IH]; simpl.
  - apply agree_ret.
  - apply agree_bind; [apply Hb | intros _; exact IH].
Qed.

Lemma agree_check_backup_file u ext found :
  agree (check_backup_file P u ext found) (check_backup_file P u ext found).
Proof.
  unfold check_backup_file, logging_debug, logging_info.
  apply agree_try_except.
  - apply agree_bind; [apply agree_logging|]. intros _.
    apply agree_bind; [apply agree_requests_get|]. intros r.
    apply agree_bind.
    + unfold raise_for_status.
      destruct ((400 <=? status_code r) && (status_code r <? 600));
        [apply agree_raise | apply agree_ret].
    + intros _. destruct (status_code r =? 200);
        (apply agree_bind; [apply agree_logging | intros _; apply agree_ret]).
  - intros e. apply agree_bind; [apply agree_logging | intros _; apply agree_ret].
Qed.

Lemma agree_check_loop u exts : forall found,
  agree (check_loop P u exts found) (check_loop P u exts found).
Proof.
  induction exts as [|ext rest IH]; intros found; simpl.
  - apply agree_ret.
  - apply agree_bind; [apply agree_check_backup_file | intros f; apply IH].
Qed.

Lemma agree_save_results path results :
  agree (save_results P path results) (save_results P path results).
Proof.
  unfold save_results, logging_info, logging_error.
  apply agree_try_except.
  - apply agree_bind; [apply agree_open_w|]. intros f.
    apply agree_bind; [|intros _; apply agree_logging].
    apply agree_for_each. intros x. apply agree_file_write.
  - intros e. apply agree_logging.
Qed.

Lemma agree_report_results args found :
  agree (report_results P args found) (report_results P args found).
Proof.
  unfold report_results. destruct (bool_list found); [|apply agree_print].
  apply agree_bind; [apply agree_print|]. intros _.
  apply agree_bind; [apply agree_for_each; intros x; apply agree_print|].
  intros _. destruct (bool_opt bool_str (output args));
    [apply agree_save_results | apply agree_ret].
Qed.

Lemma agree_is_valid_url u : agree (is_valid_url P u) (is_valid_url P u).
Proof.
  intros st1 st2 H. rewrite !is_valid_url_run. auto.
Qed.

(** X9: the verbose flag changes the log and nothing else.  Two runs from
    the same state whose arguments differ only in [-v] exit with the same
    status, send the same requests, meet the same network, print the same
    text and leave the same files. *)
Theorem X9_verbose_changes_only_the_log u out exts st :
  (run P (mkNamespace u true out exts) st).1
  = (run P (mkNamespace u false out exts) st).1
  /\ obs (run P (mkNamespace u true out exts) st).2
     = obs (run P (mkNamespace u false out exts) st).2.
Proof.
  assert (agree (script P (mkNamespace u true out exts))
                (script P (mkNamespace u false out exts))) as Hagree.
  { unfold script, main. simpl.
    apply agree_bind; [intros s1 s2 H; split; [reflexivity|exact H]|].
    intros _. apply agree_bind.
    - intros s1 s2 H. unfold bind, setLevel, logging_debug, ret.
      rewrite logging_log_run. split; [reflexivity|exact H].
    - intros _. apply agree_bind; [apply agree_is_valid_url|]. intros valid.
      apply agree_bind.
      + destruct valid; simpl; [apply agree_ret|].
        apply agree_bind; [apply agree_logging|]. intros _. apply agree_raise.
      + intros _. apply agree_bind; [apply agree_logging|]. intros _.
        apply agree_bind; [apply agree_check_loop|]. intros found.
        apply (agree_report_results (mkNamespace u true out exts) found). }
  destruct (Hagree st st eq_refl) as [Hr Ho]. unfold run.
  destruct (script P (mkNamespace u true out exts) st) as [r1 s1].
  destruct (script P (mkNamespace u false out exts) st) as [r2 s2].
  simpl in *. subst r2. auto.
Qed.

End More.

(** ** The further properties on concrete runs *)


Lemma X7_witness :
  let st := initial_state example_platform 0%nat in
  let args := mkNamespace "not a url" true (Some "results.txt") None in
  url_ok example_platform (url args) = false
  /\ exists st',
      run example_platform args st = (1, st')
      /\ stdout st' = ""
      /\ files st' = ∅
      /\ log st' = [(DEBUG, "Verbose mode enabled.");
                    (ERROR, invalid_url_message)].
Proof.
  intros st args. split; [reflexivity|].
  destruct (X7_invalid_url_only_logs example_platform args st eq_refl)
    as (st' & Hrun & Hso & Hf & Hlog).
  exists st'. split; [exact Hrun|]. split; [exact Hso|].
  split; [exact Hf | exact Hlog].
Defined.

Lemma X8_witness :
  let st := mkState example_platform 0%nat [] INFO [] ""
              {[ "notes.txt" := "keep" ]} in
  let args := mkNamespace "http://example.com/app" false
                (Some "results.txt") None in
  exists code st',
    run example_platform args st = (code, st')
    /\ files st' !! "notes.txt" = Some "keep".
Proof.
  intros st args.
  destruct (X8_run_touches_only_the_output_file example_platform args st)
    as (code & st' & Hrun & _ & Hother).
  exists code, st'. split; [exact Hrun|].
  rewrite (Hother "results.txt" "notes.txt" eq_refl ltac:(discriminate)).
  reflexivity.
Defined.

(** * The script over the libraries as they behave: properties *)

Section FullProperties.

Context (L : Full.Library).

Implicit Types (st : state L) (u ext path : string) (found : list string).

(** ** One iteration of the scan *)

Lemma sent_logged_chatter rs1 rs2 u w st :
  set_world L w
    (logged rs2 (set_requests L (requests st ++ [u]) (logged rs1 st)))
  = logged (rs1 ++ rs2) (sent u w st).
Proof.
  unfold logged, sent, set_world, set_requests, set_log. simpl.
  rewrite List.filter_app, app_assoc. reflexivity.
Qed.

Ltac run_full_probe :=
  unfold Full.check_backup_file, try_except, bind, Full.requests_get,
    logging_debug, logging_info;
  rewrite !logging_log_run; simpl.

(** The request raises an exception that [requests] does not wrap: the
    iteration raises it. *)
Lemma full_probe_failure u ext found st e w :
  Full.failure L (u +:+ ext) (world st) = Some (e, w) ->
  is_RequestException e = false ->
  Full.check_backup_file L u ext found st =
    (Raise e,
     logged ((DEBUG, "Checking for: " +:+ (u +:+ ext))
             :: Full.chatter L (u +:+ ext) (world st))
       (sent (u +:+ ext) w st)).
Proof.
  intros Hf He. run_full_probe. rewrite Hf. simpl. rewrite He.
  rewrite sent_logged_chatter. reflexivity.
Qed.

Lemma full_probe_failure_caught u ext found st e w :
  Full.failure L (u +:+ ext) (world st) = Some (e, w) ->
  is_RequestException e = true ->
  Full.check_backup_file L u ext found st =
    (Ok found,
     logged (((DEBUG, "Checking for: " +:+ (u +:+ ext))
              :: Full.chatter L (u +:+ ext) (world st))
             ++ [(DEBUG, "Error checking " +:+ (u +:+ ext) +:+ ": "
                         +:+ str L e)])
       (sent (u +:+ ext) w st)).
Proof.
  intros Hf He. run_full_probe. rewrite Hf. simpl. rewrite He.
  rewrite logging_log_run. unfold ret.
  rewrite sent_logged_chatter, logged_app. reflexivity.
Qed.

Lemma full_probe_network_error u ext found st msg w :
  Full.failure L (u +:+ ext) (world st) = None ->
  http_get L (u +:+ ext) (world st) = (inr msg, w) ->
  Full.check_backup_file L u ext found st =
    (Ok found,
     logged (((DEBUG, "Checking for: " +:+ (u +:+ ext))
              :: Full.chatter L (u +:+ ext) (world st))
             ++ [(DEBUG, "Error checking " +:+ (u +:+ ext) +:+ ": " +:+ msg)])
       (sent (u +:+ ext) w st)).
Proof.
  intros Hf Hget. run_full_probe. rewrite Hf, Hget. simpl.
  rewrite logging_log_run. unfold ret.
  rewrite sent_logged_chatter, logged_app. reflexivity.
Qed.

Lemma full_probe_error_status u ext found st r w :
  Full.failure L (u +:+ ext) (world st) = None ->
  http_get L (u +:+ ext) (world st) = (inl r, w) ->
  400 <= status_code r < 600 ->
  Full.check_backup_file L u ext found st =
    (Ok found,
     logged (((DEBUG, "Checking for: " +:+ (u +:+ ext))
              :: Full.chatter L (u +:+ ext) (world st))
             ++ [(DEBUG, "Error checking " +:+ (u +:+ ext) +:+ ": "
                         +:+ http_error_str L (status_code r) (u +:+ ext))])
       (sent (u +:+ ext) w st)).
Proof.
  intros Hf Hget Hc. run_full_probe. rewrite Hf, Hget. simpl.
  unfold raise_for_status.
  replace ((400 <=? status_code r) && (status_code r <? 600)) with true
    by (symmetry; apply andb_true_intro; split; lia).
  unfold raise. simpl.
  rewrite logging_log_run. unfold ret.
  rewrite sent_logged_chatter, logged_app. reflexivity.
Qed.

Lemma full_probe_found u ext found st r w :
  Full.failure L (u +:+ ext) (world st) = None ->
  http_get L (u +:+ ext) (world st) = (inl r, w) ->
  status_code r = 200 ->
  Full.check_backup_file L u ext found st =
    (Ok (found ++ [u +:+ ext])%list,
     logged (((DEBUG, "Checking for: " +:+ (u +:+ ext))
              :: Full.chatter L (u +:+ ext) (world st))
             ++ [(INFO, "Found backup file: " +:+ (u +:+ ext))])
       (sent (u +:+ ext) w st)).
Proof.
  intros Hf Hget Hc. run_full_probe. rewrite Hf, Hget. simpl.
  unfold raise_for_status. rewrite Hc. simpl. unfold logging_info.
  rewrite logging_log_run. unfold ret.
  rewrite sent_logged_chatter, logged_app. reflexivity.
Qed.

Lemma full_probe_other_status u ext found st r w :
  Full.failure L (u +:+ ext) (world st) = None ->
  http_get L (u +:+ ext) (world st) = (inl r, w) ->
  ~ 400 <= status_code r < 600 ->
  status_code r <> 200 ->
  Full.check_backup_file L u ext found st =
    (Ok found,
     logged (((DEBUG, "Checking for: " +:+ (u +:+ ext))
              :: Full.chatter L (u +:+ ext) (world st))
             ++ [(DEBUG, "Status code " +:+ pretty (status_code r) +:+ " for "
                         +:+ (u +:+ ext))])
       (sent (u +:+ ext) w st)).
Proof.
  intros Hf Hget Hc H200. run_full_probe. rewrite Hf, Hget. simpl.
  unfold raise_for_status.
  replace ((400 <=? status_code r) && (status_code r <? 600)) with false
    by (symmetry; apply andb_false_iff; lia).
  simpl.
  replace (status_code r =? 200) with false by (symmetry; lia).
  unfold logging_debug. rewrite logging_log_run. unfold ret.
  rewrite sent_logged_chatter, logged_app. reflexivity.
Qed.

(** Every iteration sends one request and appends to the log; it returns
    the list it was given, with or without the candidate, or raises what
    the request raised and [requests] did not wrap. *)
Lemma full_probe_frame u ext found st :
  exists r rs w,
    Full.check_backup_file L u ext found st
      = (r, logged rs (sent (u +:+ ext) w st))
    /\ (r = Ok found \/ r = Ok (found ++ [u +:+ ext])%list
        \/ exists e, r = Raise e /\ is_RequestException e = false
                     /\ Full.failure L (u +:+ ext) (world st) = Some (e, w)).
Proof.
  destruct (Full.failure L (u +:+ ext) (world st)) as [[e w]|] eqn:Hf.
  - destruct (is_RequestException e) eqn:He.
    + eexists _, _, _. split; [eapply full_probe_failure_caught; eauto|]. auto.
    + eexists _, _, _. split; [eapply full_probe_failure; eauto|].
      right. right. eauto.
  - destruct (http_get L (u +:+ ext) (world st)) as [[r|msg] w] eqn:Hget.
    + destruct (decide (400 <= status_code r < 600)) as [Hc|Hc].
      * eexists _, _, _. split; [eapply full_probe_error_status; eauto|]. auto.
      * destruct (decide (status_code r = 200)) as [H2|H2].
        -- eexists _, _, _. split; [eapply full_probe_found; eauto|]. auto.
        -- eexists _, _, _. split; [eapply full_probe_other_status; eauto|].
           auto.
    + eexists _, _, _. split; [eapply full_probe_network_error; eauto|]. auto.
Qed.

(** When the request raises nothing that [requests] does not wrap, the
    iteration returns, with the candidate appended exactly when the answer
    is a response with status 200. *)
Lemma full_probe_scan u ext found st :
  Full.failure L (u +:+ ext) (world st) = None ->
  exists rs,
    Full.check_backup_file L u ext found st
      = (Ok (if answered_200 (http_get L (u +:+ ext) (world st)).1
             then (found ++ [u +:+ ext])%list else found),
         logged rs (sent (u +:+ ext) (http_get L (u +:+ ext) (world st)).2 st)).
Proof.
  intros Hf.
  destruct (http_get L (u +:+ ext) (world st)) as [[r|msg] w] eqn:Hget; simpl.
  - destruct (decide (400 <= status_code r < 600)) as [Hc|Hc].
    + eexists. erewrite full_probe_error_status by eauto.
      replace (status_code r =? 200) with false by (symmetry; lia).
      reflexivity.
    + destruct (decide (status_code r = 200)) as [H2|H2].
      * eexists. erewrite full_probe_found by eauto.
        rewrite H2. reflexivity.
      * eexists. erewrite full_probe_other_status by eauto.
        replace (status_code r =? 200) with false by (symmetry; lia).
        reflexivity.
  - eexists. erewrite full_probe_network_error by eauto. reflexivity.
Qed.

(** ** The scan *)

Lemma full_check_loop_frame u exts : forall found st,
  exists r st',
    Full.check_loop L u exts found st = (r, st')
    /\ stdout st' = stdout st
    /\ files st' = files st
    /\ level st' = level st
    /\ (exists rs, log st' = (log st ++ rs)%list)
    /\ match r with
       | Ok found' => (length found' <= length found + length exts)%nat
       | Raise e =>
           is_RequestException e = false
           /\ exists ext w w',
               In ext exts /\ Full.failure L (u +:+ ext) w = Some (e, w')
       end.
Proof.
  induction exts as [|ext rest IH]; intros found st; simpl.
  - exists (Ok found), st. unfold ret. repeat split; try lia.
    exists []. rewrite app_nil_r. reflexivity.
  - unfold bind.
    destruct (full_probe_frame u ext found st) as (r & rs & w & Hp & Hr).
    rewrite Hp.
    assert (forall found1, (length found1 <= S (length found))%nat ->
              r = Ok found1 ->
              exists r' st',
                Full.check_loop L u rest found1
                  (logged rs (sent (u +:+ ext) w st)) = (r', st')
                /\ stdout st' = stdout st
                /\ files st' = files st
                /\ level st' = level st
                /\ (exists rs', log st' = (log st ++ rs')%list)
                /\ match r' with
                   | Ok found' =>
                       (length found' <= length found + S (length rest))%nat
                   | Raise e =>
                       is_RequestException e = false
                       /\ exists ext' w0 w',
                           (ext = ext' \/ In ext' rest)
                           /\ Full.failure L (u +:+ ext') w0 = Some (e, w')
                   end) as Hok.
    { intros found1 Hlen _.
      destruct (IH found1 (logged rs (sent (u +:+ ext) w st)))
        as (r' & st' & Hl & Hso & Hfi & Hlv & [rs' Hlog] & Hres).
      exists r', st'. split; [exact Hl|]. simpl in *.
      split; [exact Hso|]. split; [exact Hfi|]. split; [exact Hlv|].
      split; [rewrite Hlog, <- app_assoc; eauto|].
      destruct r' as [found'|e].
      - lia.
      - destruct Hres as (He & ext' & w0 & w' & Hin & Hfa). eauto 10. }
    destruct Hr as [-> | [-> | (e & -> & He & Hfa)]].
    + apply (Hok found); [lia | reflexivity].
    + apply (Hok (found ++ [u +:+ ext])%list); [|reflexivity].
      rewrite length_app. simpl. lia.
    + eexists _, _. split; [reflexivity|]. simpl.
      repeat split; eauto 10.
Qed.

Lemma full_check_loop_scan u exts : forall found st,
  Full.well_behaved L u exts ->
  exists st',
    Full.check_loop L u exts found st
      = (Ok (found ++ scan_result L u exts (world st))%list, st')
    /\ requests st' = (requests st ++ map (String.append u) exts)%list
    /\ level st' = level st
    /\ stdout st' = stdout st
    /\ files st' = files st.
Proof.
  induction exts as [|ext rest IH]; intros found st Hwb; simpl.
  - exists st. unfold ret. rewrite !app_nil_r. auto.
  - destruct (full_probe_scan u ext found st) as [rs Hp].
    { apply Hwb. left. reflexivity. }
    unfold bind. rewrite Hp.
    destruct (http_get L (u +:+ ext) (world st)) as [o w]; simpl in *.
    match goal with |- context [Full.check_loop L u rest ?f ?s] =>
      destruct (IH f s) as (st' & Hl & Hr & Hlv & Hso & Hf) end.
    { intros ext' w' Hin. apply Hwb. right. exact Hin. }
    exists st'. rewrite Hl. simpl in *.
    repeat split; try assumption.
    + destruct (answered_200 o); simpl; [rewrite <- app_assoc|]; reflexivity.
    + rewrite Hr, <- app_assoc. reflexivity.
Qed.

(** X1: the prober only talks to the network and to the logger.  Whatever
    the libraries do, [check_backup_files] prints nothing, writes no file,
    leaves the logger's level as it was and keeps every record the log
    already held.  It returns a list no longer than the suffix list, or
    raises an exception that is not a [RequestException] and that the
    request for one of the candidates raised; it returns whenever no such
    request raises an exception that [requests] does not wrap. *)
Theorem X1_scan_frame u exts st :
  exists r st',
    Full.check_backup_files L u exts st = (r, st')
    /\ stdout st' = stdout st
    /\ files st' = files st
    /\ level st' = level st
    /\ (exists rs, log st' = (log st ++ rs)%list)
    /\ match r with
       | Ok found => (length found <= length exts)%nat
       | Raise e =>
           is_RequestException e = false
           /\ exists ext w w',
               In ext exts /\ Full.failure L (u +:+ ext) w = Some (e, w')
       end
    /\ (Full.well_behaved L u exts -> exists found, r = Ok found).
Proof.
  unfold Full.check_backup_files.
  destruct (full_check_loop_frame u exts [] st)
    as (r & st' & Hl & Hso & Hf & Hlv & Hlog & Hres).
  exists r, st'. repeat split; try assumption.
  intros Hwb.
  destruct (full_check_loop_scan u exts [] st Hwb) as (st'' & Hl' & _).
  rewrite Hl' in Hl. injection Hl as <- _. eauto.
Qed.

(** ** Saving *)

Lemma substring_prefix n (s : string) :
  exists rest, s = substring 0 n s +:+ rest.
Proof.
  revert n. induction s as [|c s IH]; intros n.
  - exists "". destruct n; reflexivity.
  - destruct n as [|n]; simpl.
    + exists (String c s). reflexivity.
    + destruct (IH n) as [rest Hrest]. exists rest.
      rewrite append_cons, <- Hrest. reflexivity.
Qed.

(** Writing the lines to an open file: what is appended to the file is the
    text of the lines, whole when every write succeeds, and a part of it,
    from the start, when a write fails. *)
Lemma full_write_all f results : forall st c,
  files st !! f = Some c ->
  exists r c' rest,
    for_each L results (fun result => Full.file_write L f (result +:+ nl)) st
      = (r, set_files L (<[f := c +:+ c']> (files st)) st)
    /\ lines results = c' +:+ rest
    /\ (r = Ok tt /\ rest = "" \/ exists msg, r = Raise (IOError msg)).
Proof.
  induction results as [|x xs IH]; intros st c Hc; simpl.
  - exists (Ok tt), "", "". unfold ret.
    rewrite append_nil_r, insert_id by assumption.
    split; [destruct st; reflexivity|]. split; [reflexivity|]. left. auto.
  - unfold bind, Full.file_write at 1. rewrite Hc. simpl.
    destruct (write_error L f c (x +:+ nl)) as [msg|] eqn:Hw.
    + destruct (substring_prefix
                  (Full.written_before_error L f c (x +:+ nl)) (x +:+ nl))
        as [tail Htail].
      exists (Raise (IOError msg)),
        (substring 0 (Full.written_before_error L f c (x +:+ nl)) (x +:+ nl)),
        (tail +:+ lines xs).
      split; [reflexivity|]. split.
      * rewrite <- (append_assoc _ tail), <- Htail.
        symmetry. apply append_assoc.
      * right. eauto.
    + destruct (IH (set_files L (<[f := c +:+ x +:+ nl]> (files st)) st)
                  (c +:+ x +:+ nl)) as (r & c' & rest & Hrun & Hlines & Hr).
      { simpl. apply lookup_insert_eq. }
      exists r, ((x +:+ nl) +:+ c'), rest. rewrite Hrun. simpl.
      rewrite insert_insert_eq. split.
      * rewrite <- !append_assoc. reflexivity.
      * split; [|exact Hr]. rewrite Hlines, !append_assoc. reflexivity.
Qed.

(** [save_results] never raises.  Once the file is open it ends with, in
    the file, a part of the text of the lines, from the start: the whole
    text when it logs the INFO record. *)
Lemma full_save_results_run path results st :
  open_error L path = None ->
  exists content rest rec,
    Full.save_results L path results st
      = (Ok tt, logged [rec]
                  (set_files L (<[path := content]> (files st)) st))
    /\ lines results = content +:+ rest
    /\ (rec = (INFO, "Results saved to: " +:+ path) /\ rest = ""
        \/ exists msg,
            rec = (ERROR, "Error saving results to file: " +:+ msg)).
Proof.
  intros Ho.
  unfold Full.save_results, try_except, bind, Full.with_open_w, bind, open_w.
  rewrite Ho. simpl.
  destruct (full_write_all path results
              (set_files L (<[path := ""]> (files st)) st) "")
    as (r & c' & rest & Hrun & Hlines & Hr).
  { simpl. apply lookup_insert_eq. }
  rewrite Hrun. simpl. rewrite insert_insert_eq.
  change ("" +:+ c') with c'.
  unfold Full.close. simpl. rewrite lookup_insert_eq. simpl.
  exists c', rest.
  destruct Hr as [[-> ->] | (msg & ->)];
    destruct (Full.close_error L path c') as [msg'|]; simpl;
    unfold logging_info, logging_error; rewrite logging_log_run;
    eexists; (split; [reflexivity|]); (split; [exact Hlines|]); eauto.
Qed.

Lemma full_save_results_open_fails path results st msg :
  open_error L path = Some msg ->
  Full.save_results L path results st
    = (Ok tt, logged [(ERROR, "Error saving results to file: " +:+ msg)] st).
Proof.
  intros Ho.
  unfold Full.save_results, try_except, bind, Full.with_open_w, bind, open_w.
  rewrite Ho. simpl. unfold logging_error. rewrite logging_log_run.
  reflexivity.
Qed.

(** X6: once the file can be opened, [save_results] always returns and
    leaves in it a part of the text of the results (the found URLs, each
    followed by a newline), from the start and in place of whatever the file
    held: the whole text when it logs the INFO record, and what reached the
    disk when a write or [close] fails and it logs the ERROR record.  It
    touches no other file and neither standard output nor the requests. *)
Theorem X6_save_results_writes_a_prefix path results st :
  open_error L path = None ->
  level st <= INFO ->
  exists content rest st',
    Full.save_results L path results st = (Ok tt, st')
    /\ files st' = <[path := content]> (files st)
    /\ lines results = content +:+ rest
    /\ stdout st' = stdout st
    /\ requests st' = requests st
    /\ (log st' = (log st ++ [(INFO, "Results saved to: " +:+ path)])%list
          /\ rest = ""
        \/ exists msg,
            log st' = (log st ++ [(ERROR, "Error saving results to file: "
                                          +:+ msg)])%list).
Proof.
  intros Ho Hlv.
  assert ((level st <=? INFO) = true) as Hi by lia.
  assert ((level st <=? ERROR) = true) as He by (unfold INFO, ERROR in *; lia).
  destruct (full_save_results_run path results st Ho)
    as (content & rest & rec & Hsave & Hlines & Hrec).
  exists content, rest. eexists. split; [exact Hsave|].
  split; [reflexivity|]. split; [exact Hlines|].
  split; [reflexivity|]. split; [reflexivity|].
  unfold logged. simpl.
  destruct Hrec as [[-> ->] | (msg & ->)]; simpl.
  - left. rewrite Hi. auto.
  - right. exists msg. rewrite He. reflexivity.
Qed.

(** ** The reporter and the whole run *)

Lemma full_save_results_returns path results st :
  exists st',
    Full.save_results L path results st = (Ok tt, st')
    /\ world st' = world st /\ requests st' = requests st
    /\ stdout st' = stdout st.
Proof.
  destruct (open_error L path) as [msg|] eqn:Ho.
  - rewrite (full_save_results_open_fails path results st msg Ho).
    eexists. split; [reflexivity|]. auto.
  - destruct (full_save_results_run path results st Ho)
      as (content & rest & rec & Hsave & _).
    rewrite Hsave. eexists. split; [reflexivity|]. auto.
Qed.

Lemma full_report_results_returns args found st :
  exists st',
    Full.report_results L args found st = (Ok tt, st')
    /\ world st' = world st /\ requests st' = requests st.
Proof.
  unfold Full.report_results. destruct found as [|x rest].
  - eexists. split; [reflexivity|]. auto.
  - unfold bool_list, bind, print at 1. rewrite print_all. simpl.
    destruct (bool_opt bool_str (output args)).
    + match goal with |- context [Full.save_results L ?p ?f ?s] =>
        destruct (full_save_results_returns p f s) as (st' & H & Hw & Hr & _)
      end.
      rewrite H. exists st'. split; [reflexivity|]. auto.
    + eexists. split; [reflexivity|]. auto.
Qed.

Lemma full_run_invalid args st :
  url_ok L (url args) = false ->
  exists st',
    Full.run L args st = (1, st')
    /\ world st' = world st /\ requests st' = requests st
    /\ stdout st' = stdout st /\ files st' = files st.
Proof.
  intros Hinv. unfold Full.run, Full.script, Full.main, bind, setLevel.
  destruct (verbose args); simpl;
    unfold logging_debug; rewrite ?logging_log_run; simpl;
    rewrite is_valid_url_run, Hinv; simpl;
    unfold logging_error; rewrite ?logging_log_run; simpl;
    eexists; (split; [reflexivity|]); auto.
Qed.

Lemma full_run_valid args st :
  url_ok L (url args) = true ->
  Full.well_behaved L (url args) (extensions_to_use args) ->
  exists st',
    Full.run L args st = (0, st')
    /\ requests st'
       = (requests st
          ++ map (String.append (url args)) (extensions_to_use args))%list.
Proof.
  intros Hval Hwb. unfold Full.run, Full.script, Full.main, bind, setLevel.
  destruct (verbose args); simpl;
    unfold logging_debug; rewrite ?logging_log_run; simpl;
    rewrite is_valid_url_run, Hval; simpl;
    unfold logging_info; rewrite ?logging_log_run; simpl;
    unfold Full.check_backup_files;
    match goal with |- context [Full.check_loop L ?u ?e ?f ?s] =>
      destruct (full_check_loop_scan u e f s Hwb)
        as (s2 & Hc & Hr & _) end;
    rewrite Hc; simpl in *;
    match goal with |- context [Full.report_results L ?a ?f ?s] =>
      destruct (full_report_results_returns a f s)
        as (st' & Hrep & _ & Hreq) end;
    rewrite Hrep; exists st'; (split; [reflexivity|]); congruence.
Qed.

(** ** The log of a scan *)

Lemma filter_below lvl (rs : list (Z * string)) :
  (forall rec, In rec rs -> rec.1 < lvl) ->
  List.filter (fun r => lvl <=? r.1) rs = [].
Proof.
  induction rs as [|r rs IH]; intros Hq; simpl; [reflexivity|].
  replace (lvl <=? r.1) with false
    by (symmetry; apply Z.leb_gt, Hq; left; reflexivity).
  apply IH. intros rec Hin. apply Hq. right. exact Hin.
Qed.

(** What one iteration appends to the log when the request raises nothing
    that [requests] does not wrap: the record of the candidate, what the
    library logged, and one record of the outcome, which is the INFO record
    of a found file exactly when the candidate is appended. *)
Lemma full_probe_log u ext found st :
  Full.failure L (u +:+ ext) (world st) = None ->
  exists found' o w,
    Full.check_backup_file L u ext found st
      = (Ok found',
         logged (((DEBUG, "Checking for: " +:+ (u +:+ ext))
                  :: Full.chatter L (u +:+ ext) (world st)) ++ [o])
           (sent (u +:+ ext) w st))
    /\ (found' = (found ++ [u +:+ ext])%list
          /\ o = (INFO, "Found backup file: " +:+ (u +:+ ext))
        \/ found' = found /\ o.1 = DEBUG).
Proof.
  intros Hf.
  destruct (http_get L (u +:+ ext) (world st)) as [[r|msg] w] eqn:Hget.
  - destruct (decide (400 <= status_code r < 600)) as [Hc|Hc].
    + eexists _, _, _. split; [eapply full_probe_error_status; eauto|]. auto.
    + destruct (decide (status_code r = 200)) as [H2|H2].
      * eexists _, _, _. split; [eapply full_probe_found; eauto|]. auto.
      * eexists _, _, _. split; [eapply full_probe_other_status; eauto|]. auto.
  - eexists _, _, _. split; [eapply full_probe_network_error; eauto|]. auto.
Qed.

(** X3: at the default level (INFO, or any level above DEBUG and up to
    INFO), when no request raises an exception that [requests] does not
    wrap and the library logs nothing at or above the logger's level, the
    scan appends to the log one INFO record per found URL, in the order of
    the result, and nothing else. *)
Theorem X3_quiet_scan_logs_only_found u exts st :
  DEBUG < level st <= INFO ->
  Full.well_behaved L u exts ->
  (forall ext w rec,
      In ext exts -> In rec (Full.chatter L (u +:+ ext) w) ->
      rec.1 < level st) ->
  exists found st',
    Full.check_backup_files L u exts st = (Ok found, st')
    /\ log st'
       = (log st
          ++ map (fun f => (INFO, "Found backup file: " +:+ f)) found)%list.
Proof.
  unfold Full.check_backup_files. intros Hlv Hwb Hq.
  enough (forall found st0,
            level st0 = level st ->
            exists new st',
              Full.check_loop L u exts found st0
                = (Ok (found ++ new)%list, st')
              /\ log st'
                 = (log st0
                    ++ map (fun f => (INFO, "Found backup file: " +:+ f))
                         new)%list) as Hgen.
  { destruct (Hgen [] st eq_refl) as (new & st' & H & Hl). eauto. }
  induction exts as [|ext rest IH]; intros found st0 Hst0; simpl.
  - exists [], st0. unfold ret. simpl. rewrite !app_nil_r. auto.
  - assert ((level st0 <=? DEBUG) = false) as Hd
      by (rewrite Hst0; unfold DEBUG in *; lia).
    assert ((level st0 <=? INFO) = true) as Hi
      by (rewrite Hst0; unfold INFO in *; lia).
    destruct (full_probe_log u ext found st0) as (found' & o & w & Hp & Ho).
    { apply Hwb. left. reflexivity. }
    unfold bind. rewrite Hp.
    match goal with |- context [Full.check_loop L u rest found' ?s] =>
      destruct (IH (fun e w0 Hin => Hwb e w0 (or_intror Hin))
                   (fun e w0 rec Hin => Hq e w0 rec (or_intror Hin))
                   found' s) as (new & st' & Hl & Hlog) end.
    { simpl. exact Hst0. }
    rewrite Hl.
    assert (log st'
            = ((log st0 ++ List.filter (fun r => level st0 <=? r.1) [o])
               ++ map (fun f => (INFO, "Found backup file: " +:+ f)) new)%list)
      as Hlog'.
    { rewrite Hlog. unfold logged. simpl. rewrite Hd.
      rewrite List.filter_app, (filter_below (level st0)); [reflexivity|].
      intros rec Hin. rewrite Hst0.
      eapply Hq; [left; reflexivity|exact Hin]. }
    destruct Ho as [[-> ->] | [-> Ho]].
    + exists ((u +:+ ext) :: new), st'. split.
      * rewrite <- app_assoc. reflexivity.
      * rewrite Hlog'. simpl. rewrite Hi. rewrite <- app_assoc. reflexivity.
    + exists new, st'. split; [reflexivity|].
      rewrite Hlog'. simpl.
      replace (level st0 <=? o.1) with false
        by (symmetry; rewrite Ho; exact Hd).
      rewrite app_nil_r. reflexivity.
Qed.

(** X4: at level DEBUG, when no request raises an exception that
    [requests] does not wrap, every suffix leaves in the log, in list
    order: the record of the candidate checked, then the records the
    library logged during the request (those at or above the logger's
    level), then one record of the outcome. *)
Theorem X4_verbose_scan_logs_every_candidate u exts st :
  level st <= DEBUG ->
  Full.well_behaved L u exts ->
  exists found st' (steps : list (World L * (Z * string))),
    Full.check_backup_files L u exts st = (Ok found, st')
    /\ length steps = length exts
    /\ log st'
       = (log st
          ++ concat (zip_with
                       (fun ext step =>
                          (DEBUG, "Checking for: " +:+ (u +:+ ext))
                          :: List.filter (fun r => level st <=? r.1)
                               (Full.chatter L (u +:+ ext) step.1)
                          ++ [step.2])
                       exts steps))%list.
Proof.
  unfold Full.check_backup_files. intros Hlv Hwb.
  enough (forall found st0,
            level st0 = level st ->
            exists found' st' (steps : list (World L * (Z * string))),
              Full.check_loop L u exts found st0 = (Ok found', st')
              /\ length steps = length exts
              /\ log st'
                 = (log st0
                    ++ concat (zip_with
                                 (fun ext step =>
                                    (DEBUG, "Checking for: " +:+ (u +:+ ext))
                                    :: List.filter (fun r => level st <=? r.1)
                                         (Full.chatter L (u +:+ ext) step.1)
                                    ++ [step.2])
                                 exts steps))%list) as Hgen.
  { apply Hgen. reflexivity. }
  induction exts as [|ext rest IH]; intros found st0 Hst0; simpl.
  - exists found, st0, []. unfold ret. simpl. rewrite app_nil_r. auto.
  - assert ((level st0 <=? DEBUG) = true) as Hd
      by (rewrite Hst0; unfold DEBUG in *; lia).
    assert ((level st0 <=? INFO) = true) as Hi
      by (rewrite Hst0; unfold DEBUG, INFO in *; lia).
    destruct (full_probe_log u ext found st0) as (found' & o & w & Hp & Ho).
    { apply Hwb. left. reflexivity. }
    unfold bind. rewrite Hp.
    match goal with |- context [Full.check_loop L u rest found' ?s] =>
      destruct (IH (fun e w0 Hin => Hwb e w0 (or_intror Hin)) found' s)
        as (found'' & st' & steps & Hl & Hlen & Hlog) end.
    { simpl. exact Hst0. }
    exists found'', st', ((world st0, o) :: steps).
    split; [exact Hl|]. split; [simpl; rewrite Hlen; reflexivity|].
    rewrite Hlog. unfold logged. simpl. rewrite Hd.
    rewrite List.filter_app. simpl.
    replace (level st0 <=? o.1) with true
      by (symmetry; destruct Ho as [[_ ->] | [_ ->]]; assumption).
    rewrite Hst0. simpl. rewrite <- !app_assoc. simpl.
    rewrite <- ?app_assoc. reflexivity.
Qed.

(** C3 (amended): [is_valid_url] returns true exactly when [urlparse]
    returns a result whose scheme and netloc are both non-empty, and false
    when [urlparse] raises; a run on an invalid URL exits with status 1
    without sending any request; a run on a valid URL exits with status 0
    when no request raises an exception that [requests] does not wrap. *)
Theorem C3_validation_by_scheme_and_netloc args st :
  exists b,
    is_valid_url L (url args) st = (Ok b, st)
    /\ (b = true <->
        exists r, urlparse L (url args) = Ok r
                  /\ scheme r <> "" /\ netloc r <> "")
    /\ ((exists e, urlparse L (url args) = Raise e) -> b = false)
    /\ (b = false ->
        exists st', Full.run L args st = (1, st')
                    /\ requests st' = requests st
                    /\ world st' = world st)
    /\ (b = true ->
        Full.well_behaved L (url args) (extensions_to_use args) ->
        exists st', Full.run L args st = (0, st')).
Proof.
  exists (url_ok L (url args)). split; [apply is_valid_url_run|].
  split; [apply url_ok_iff|]. split; [|split].
  - intros [e He]. unfold url_ok. rewrite He. reflexivity.
  - intros Hinv.
    destruct (full_run_invalid args st Hinv) as (st' & H & Hw & Hr & _).
    eauto.
  - intros Hval Hwb.
    destruct (full_run_valid args st Hval Hwb) as (st' & H & _).
    eauto.
Qed.

(** ** Errors that are caught, and the two embeddings *)

(** X10: an error of the first candidate that the handler catches does not
    stop the scan.  When the request for it raises a [RequestException], or
    is answered with a 4xx or 5xx status, scanning the list is scanning the
    rest of the list from the state reached: the request was sent, nothing
    was printed or written, and (unless the logger is at DEBUG) nothing of
    the script's own was logged. *)
Theorem X10_caught_error_skips_one_candidate u ext rest st :
  Full.failure L (u +:+ ext) (world st) = None ->
  (exists msg w, http_get L (u +:+ ext) (world st) = (inr msg, w))
  \/ (exists r w, http_get L (u +:+ ext) (world st) = (inl r, w)
                  /\ 400 <= status_code r < 600) ->
  exists e st1,
    Full.check_backup_files L u (ext :: rest) st
      = Full.check_backup_files L u rest st1
    /\ requests st1 = (requests st ++ [u +:+ ext])%list
    /\ stdout st1 = stdout st
    /\ files st1 = files st
    /\ log st1
       = (log st
          ++ List.filter (fun r => level st <=? r.1)
               (((DEBUG, "Checking for: " +:+ (u +:+ ext))
                 :: Full.chatter L (u +:+ ext) (world st))
                ++ [(DEBUG, "Error checking " +:+ (u +:+ ext) +:+ ": "
                            +:+ e)]))%list.
Proof.
  intros Hf Herr.
  assert (exists e w,
             Full.check_backup_file L u ext [] st
             = (Ok [],
                logged (((DEBUG, "Checking for: " +:+ (u +:+ ext))
                         :: Full.chatter L (u +:+ ext) (world st))
                        ++ [(DEBUG, "Error checking " +:+ (u +:+ ext) +:+ ": "
                                    +:+ e)])
                  (sent (u +:+ ext) w st))) as (e & w & Hp).
  { destruct Herr as [(msg & w & Hget) | (r & w & Hget & Hc)].
    - exists msg, w. apply full_probe_network_error; assumption.
    - exists (http_error_str L (status_code r) (u +:+ ext)), w.
      apply full_probe_error_status; assumption. }
  eexists e, _. split.
  { unfold Full.check_backup_files. simpl. unfold bind. rewrite Hp.
    reflexivity. }
  repeat split.
Qed.

(** X11: when no request raises an exception that [requests] does not wrap,
    the scan over the libraries as they behave and the scan over their
    documented contract differ in the log only: they return the same list
    and agree on the requests sent, the network, standard output and the
    files. *)
Theorem X11_scans_agree_up_to_the_log u exts st :
  Full.well_behaved L u exts ->
  (Full.check_backup_files L u exts st).1 = (check_backup_files L u exts st).1
  /\ obs (Full.check_backup_files L u exts st).2
     = obs (check_backup_files L u exts st).2.
Proof.
  unfold Full.check_backup_files, check_backup_files. intros Hwb.
  enough (forall found st1 st2,
            obs st1 = obs st2 ->
            (Full.check_loop L u exts found st1).1
            = (check_loop L u exts found st2).1
            /\ obs (Full.check_loop L u exts found st1).2
               = obs (check_loop L u exts found st2).2) as Hgen.
  { apply Hgen. reflexivity. }
  induction exts as [|ext rest IH]; intros found st1 st2 Hobs; simpl.
  - auto.
  - unfold bind.
    destruct (full_probe_scan u ext found st1) as [rs1 H1].
    { apply Hwb. left. reflexivity. }
    destruct (probe_scan L u ext found st2) as [rs2 H2].
    rewrite H1, H2.
    assert (world st1 = world st2) as Hw by (unfold obs in Hobs; congruence).
    rewrite Hw.
    apply (IH (fun e w0 Hin => Hwb e w0 (or_intror Hin))).
    unfold obs in *. simpl. injection Hobs as _ Hr Hs Hf. congruence.
Qed.

End FullProperties.

(** ** The full script on concrete runs *)

(** C3 as stated fails twice.  [http://:80/app] is accepted although its
    netloc holds a port and no host.  [http://a..b/app] is accepted, and the
    run exits with status 1: the request for its first candidate raises a
    [LocationParseError] that nothing catches. *)
Lemma C3_host_and_exit_counterexample :
  ~ (forall (L : Full.Library) (u : string) (st : state L) (r : ParseResult),
        urlparse L u = Ok r ->
        ((is_valid_url L u st).1 = Ok true
         <-> scheme r <> "" /\ hostname (netloc r) <> ""))
  /\ ~ (forall (L : Full.Library) (args : Namespace) (st : state L),
          (is_valid_url L (url args) st).1 = Ok true ->
          (Full.run L args st).1 = 0).
Proof.
  split.
  - intros H.
    destruct (H offline_library "http://:80/app"
                (initial_state offline_library 0%nat)
                (mkParseResult "http" ":80") eq_refl) as [Hhost _].
    destruct (Hhost eq_refl) as [_ Hne]. apply Hne. reflexivity.
  - intros H.
    specialize (H offline_library
                  (mkNamespace "http://a..b/app" false None None)
                  (initial_state offline_library 0%nat) eq_refl).
    vm_compute in H. discriminate.
Qed.

Lemma C3_witness :
  let L := quota_library 100 in
  let st := initial_state L 0%nat in
  (exists st',
      Full.run L (mkNamespace "not a url" false None None) st = (1, st')
      /\ requests st' = [])
  /\ (exists st',
        Full.run L (mkNamespace "http://example.com/app" false None None) st
        = (0, st')).
Proof.
  intros L st. split.
  - destruct (C3_validation_by_scheme_and_netloc L
                (mkNamespace "not a url" false None None) st)
      as (b & Hv & _ & _ & Hinvalid & _).
    assert (b = false) as Hb
      by (rewrite is_valid_url_run in Hv; injection Hv as <-; reflexivity).
    destruct (Hinvalid Hb) as (st' & Hrun & Hreq & _).
    exists st'. split; [exact Hrun | exact Hreq].
  - destruct (C3_validation_by_scheme_and_netloc L
                (mkNamespace "http://example.com/app" false None None) st)
      as (b & Hv & _ & _ & _ & Hvalid).
    assert (b = true) as Hb
      by (rewrite is_valid_url_run in Hv; injection Hv as <-; reflexivity).
    apply (Hvalid Hb). intros ext w _. reflexivity.
Defined.

(** C4: the code lets an exception that is not a [RequestException] end the
    scan.  With the suffixes [.bak], [..swp] and [.old] on
    [http://example.invalid], the name resolution failure of the first
    candidate is caught and logged at DEBUG, the request for the second
    raises a [LocationParseError], and the run exits with status 1 without
    probing [.old] and without printing anything. *)
Theorem C4_uncaught_exception_aborts_the_scan :
  let args := mkNamespace "http://example.invalid" true None
                (Some [".bak"; "..swp"; ".old"]) in
  let r := Full.run offline_library args
             (initial_state offline_library 0%nat) in
  r.1 = 1
  /\ requests r.2
     = ["http://example.invalid.bak"; "http://example.invalid..swp"]
  /\ In (DEBUG,
         "Error checking http://example.invalid.bak: Failed to resolve host")
        (log r.2)
  /\ stdout r.2 = "".
Proof.
  vm_compute. split; [reflexivity|]. split; [reflexivity|].
  split; [|reflexivity]. do 4 right. left. reflexivity.
Qed.

Lemma X3_witness :
  let L := quota_library 100 in
  let st := initial_state L 0%nat in
  DEBUG < level st <= INFO
  /\ Full.well_behaved L "http://example.com/app" [".old"; ".bak"]
  /\ (forall ext w rec,
         In ext [".old"; ".bak"] ->
         In rec (Full.chatter L ("http://example.com/app" +:+ ext) w) ->
         rec.1 < level st)
  /\ exists found st',
      Full.check_backup_files L "http://example.com/app" [".old"; ".bak"] st
      = (Ok found, st')
      /\ log st'
         = (log st
            ++ map (fun f => (INFO, "Found backup file: " +:+ f)) found)%list.
Proof.
  intros L st.
  assert (DEBUG < level st <= INFO) as Hlv by (vm_compute; split; congruence).
  assert (Full.well_behaved L "http://example.com/app" [".old"; ".bak"]) as Hwb
    by (intros ext w _; reflexivity).
  assert (forall ext w rec,
             In ext [".old"; ".bak"] ->
             In rec (Full.chatter L ("http://example.com/app" +:+ ext) w) ->
             rec.1 < level st) as Hq.
  { intros ext w rec _ Hin. simpl in Hin.
    destruct Hin as [<- | [<- | []]]; reflexivity. }
  split; [exact Hlv|]. split; [exact Hwb|]. split; [exact Hq|].
  exact (X3_quiet_scan_logs_only_found L "http://example.com/app"
           [".old"; ".bak"] st Hlv Hwb Hq).
Defined.

Lemma X4_witness :
  let L := quota_library 100 in
  let st := set_level L DEBUG (initial_state L 0%nat) in
  level st <= DEBUG
  /\ Full.well_behaved L "http://example.com/app" [".old"; ".bak"]
  /\ exists found st',
      Full.check_backup_files L "http://example.com/app" [".old"; ".bak"] st
      = (Ok found, st')
      /\ length (log st') = 8%nat.
Proof.
  intros L st.
  assert (level st <= DEBUG) as Hlv by (vm_compute; congruence).
  assert (Full.well_behaved L "http://example.com/app" [".old"; ".bak"]) as Hwb
    by (intros ext w _; reflexivity).
  split; [exact Hlv|]. split; [exact Hwb|].
  destruct (X4_verbose_scan_logs_every_candidate L "http://example.com/app"
              [".old"; ".bak"] st Hlv Hwb)
    as (found & st' & steps & Hscan & Hlen & Hlog).
  exists found, st'. split; [exact Hscan|].
  rewrite Hlog. destruct steps as [|s1 [|s2 [|s3 steps]]]; try discriminate.
  reflexivity.
Defined.

Lemma X6_witness :
  let L := quota_library 20 in
  let st := mkState L 0%nat [] INFO [] "" {[ "out.txt" := "old content" ]} in
  let results := ["http://a/x.bak"; "http://a/x.old"; "http://a/x.tmp"] in
  open_error L "out.txt" = None
  /\ level st <= INFO
  /\ exists content rest st',
      Full.save_results L "out.txt" results st = (Ok tt, st')
      /\ files st' = {[ "out.txt" := content ]}
      /\ lines results = content +:+ rest.
Proof.
  intros L st results.
  assert (level st <= INFO) as Hlv by (vm_compute; congruence).
  split; [reflexivity|]. split; [exact Hlv|].
  destruct (X6_save_results_writes_a_prefix L "out.txt" results st
              eq_refl Hlv) as (content & rest & st' & Hsave & Hf & Hlines & _).
  exists content, rest, st'. split; [exact Hsave|].
  split; [|exact Hlines]. rewrite Hf. apply insert_singleton_eq.
Defined.

(** The disk is full after twenty characters: the file keeps the first line
    and the start of the second, the old content is gone and the error is
    logged. *)
Example save_results_disk_full :
  let L := quota_library 20 in
  let st := mkState L 0%nat [] INFO [] "" {[ "out.txt" := "old content" ]} in
  let r := Full.save_results L "out.txt"
             ["http://a/x.bak"; "http://a/x.old"; "http://a/x.tmp"] st in
  r.1 = Ok tt
  /\ files r.2 !! "out.txt" = Some ("http://a/x.bak" +:+ nl +:+ "http:")
  /\ log r.2
     = [(ERROR, "Error saving results to file: No space left on device")].
Proof. vm_compute. repeat split. Qed.

(** A trailing dot on the host: the first candidate already has an empty
    label, the run ends with status 1 after one request. *)
Example run_trailing_dot :
  let r := Full.run offline_library
             (mkNamespace "http://example.com." false None None)
             (initial_state offline_library 0%nat) in
  r.1 = 1 /\ requests r.2 = ["http://example.com..bak"] /\ stdout r.2 = "".
Proof. vm_compute. repeat split. Qed.

Lemma X10_witness :
  let st := initial_state offline_library 0%nat in
  Full.failure offline_library ("http://example.invalid" +:+ ".bak") (world st)
  = None
  /\ ((exists msg w,
          http_get offline_library ("http://example.invalid" +:+ ".bak")
            (world st) = (inr msg, w))
      \/ (exists r w,
            http_get offline_library ("http://example.invalid" +:+ ".bak")
              (world st) = (inl r, w) /\ 400 <= status_code r < 600))
  /\ exists st1,
      Full.check_backup_files offline_library "http://example.invalid"
        [".bak"; ".old"] st
      = Full.check_backup_files offline_library "http://example.invalid"
          [".old"] st1
      /\ requests st1 = ["http://example.invalid.bak"]
      /\ log st1 = [].
Proof.
  intros st.
  assert ((exists msg w,
              http_get offline_library ("http://example.invalid" +:+ ".bak")
                (world st) = (inr msg, w))
          \/ (exists r w,
                http_get offline_library ("http://example.invalid" +:+ ".bak")
                  (world st) = (inl r, w) /\ 400 <= status_code r < 600))
    as Herr by (left; eexists _, _; reflexivity).
  split; [reflexivity|]. split; [exact Herr|].
  destruct (X10_caught_error_skips_one_candidate offline_library
              "http://example.invalid" ".bak" [".old"] st eq_refl Herr)
    as (e & st1 & Hscan & Hreq & _ & _ & Hlog).
  exists st1. split; [exact Hscan|]. split; [exact Hreq|].
  rewrite Hlog. reflexivity.
Defined.

Lemma X11_witness :
  let L := quota_library 100 in
  let st := set_level L DEBUG (initial_state L 0%nat) in
  Full.well_behaved L "http://example.com/app" [".old"; ".bak"]
  /\ (Full.check_backup_files L "http://example.com/app" [".old"; ".bak"] st).1
     = (check_backup_files L "http://example.com/app" [".old"; ".bak"] st).1.
Proof.
  intros L st.
  assert (Full.well_behaved L "http://example.com/app" [".old"; ".bak"]) as Hwb
    by (intros ext w _; reflexivity).
  split; [exact Hwb|].
  apply (X11_scans_agree_up_to_the_log L "http://example.com/app"
           [".old"; ".bak"] st Hwb).
Defined.
